(** * CairoSVG [bounding_box.py]: a shallow embedding and its properties

    The module computes axis-aligned bounding boxes of SVG shapes, path
    data and groups.  The embedding follows [cairosvg/bounding_box.py]
    function by function and keeps the Python names.

    Numbers.  Python floats are idealised: a finite float is a real
    number ([R], no rounding, no overflow) and the three special values
    are explicit constructors of [pyfloat].  Operations that raise in
    Python ([/] by zero, [sqrt] and [acos] outside their domain, unpacking
    of a sequence of the wrong length, indexing an empty string, mixing
    [str] and [float]) return [Raise] in the [result] monad.  Loops that
    Python may run forever take a fuel argument and answer [OutOfFuel]
    when it is exhausted.

    Strings are byte strings ([string] of [ascii]); [str] methods
    ([strip], [split], [replace], [in], indexing, [isdigit]) are
    embedded on them with Python's conventions. *)

From Stdlib Require Import Reals Lra Lia ZArith Ascii String.
From Stdlib Require PrimFloat.
From stdpp Require Import base strings gmap list.

Local Open Scope R_scope.

#[local] Arguments String.append : simpl nomatch.

(** ** Exceptions and the result monad *)

Inductive exn : Set :=
| TypeError | ValueError | ZeroDivisionError | IndexError | AttributeError.

Inductive result (A : Type) : Type :=
| Value (a : A)
| Raise (e : exn)
| OutOfFuel.

Arguments Value {A} a.
Arguments Raise {A} e.
Arguments OutOfFuel {A}.

#[global] Instance result_ret : MRet result := fun A a => Value a.
#[global] Instance result_bind : MBind result := fun A B k m =>
  match m with
  | Value a => k a
  | Raise e => Raise e
  | OutOfFuel => OutOfFuel
  end.

(** ** Numbers *)

Definition Rltb (a b : R) : bool := if Rlt_dec a b then true else false.
Definition Reqb (a b : R) : bool := if Req_dec_T a b then true else false.

(** A Python float: finite, [inf], [-inf] or [nan].  A finite float is a
    real number: the operations below are exact on finite operands, without
    the rounding, the overflow and the underflow of binary64 ([Binary64]
    has the box algebra on the floats of the machine). *)
Inductive pyfloat : Type :=
| Fin (r : R)
| PInf
| NInf
| NaN.

Definition isinf (f : pyfloat) : bool :=
  match f with PInf | NInf => true | _ => false end.

Definition fadd (a b : pyfloat) : pyfloat :=
  match a, b with
  | NaN, _ | _, NaN => NaN
  | Fin x, Fin y => Fin (x + y)
  | PInf, NInf | NInf, PInf => NaN
  | PInf, _ | _, PInf => PInf
  | NInf, _ | _, NInf => NInf
  end.

Definition fneg (a : pyfloat) : pyfloat :=
  match a with
  | Fin x => Fin (- x) | PInf => NInf | NInf => PInf | NaN => NaN
  end.

Definition fsub (a b : pyfloat) : pyfloat := fadd a (fneg b).

(** [a < b]; every comparison with [nan] is false. *)
Definition flt (a b : pyfloat) : bool :=
  match a, b with
  | NaN, _ | _, NaN => false
  | Fin x, Fin y => Rltb x y
  | NInf, NInf => false
  | NInf, _ => true
  | _, NInf => false
  | PInf, _ => false
  | Fin _, PInf => true
  end.

(** [a == b] *)
Definition feq (a b : pyfloat) : bool :=
  match a, b with
  | Fin x, Fin y => Reqb x y
  | PInf, PInf | NInf, NInf => true
  | _, _ => false
  end.

(** ** Python values that reach the box algebra

    A coordinate handed to [extend_bounding_box] is a float, or, in the
    [H]/[V] branches of the path interpreter, the [str] token itself. *)
Inductive pyval : Type :=
| VNum (f : pyfloat)
| VStr (s : string).

(** [a < b] on values: ordering a [str] against a [float] is a [TypeError];
    two strings compare lexicographically. *)
Definition string_ltb (a b : string) : bool :=
  match String.compare a b with Lt => true | _ => false end.

Definition vlt (a b : pyval) : result bool :=
  match a, b with
  | VNum x, VNum y => Value (flt x y)
  | VStr x, VStr y => Value (string_ltb x y)
  | _, _ => Raise TypeError
  end.

(** [min(first, *rest)]: keeps the first of the smallest items. *)
Fixpoint py_min (acc : pyval) (rest : list pyval) : result pyval :=
  match rest with
  | [] => Value acc
  | item :: rest' =>
      b ← vlt item acc;
      py_min (if (b : bool) then item else acc) rest'
  end.

(** [max(first, *rest)]: keeps the first of the largest items. *)
Fixpoint py_max (acc : pyval) (rest : list pyval) : result pyval :=
  match rest with
  | [] => Value acc
  | item :: rest' =>
      b ← vlt acc item;
      py_max (if (b : bool) then item else acc) rest'
  end.

(** [a - b] on values; only floats subtract. *)
Definition vsub (a b : pyval) : result pyfloat :=
  match a, b with
  | VNum x, VNum y => Value (fsub x y)
  | _, _ => Raise TypeError
  end.

Definition as_float (v : pyval) : result pyfloat :=
  match v with VNum f => Value f | VStr _ => Raise TypeError end.

(** ** Bounding boxes *)

(** A bounding box is a [(minx, miny, width, height)] tuple. *)
Definition bbox : Type := pyfloat * pyfloat * pyfloat * pyfloat.

Definition EMPTY_BOUNDING_BOX : bbox := (PInf, PInf, Fin 0, Fin 0).

(** [extend_bounding_box]: the transposition [zip] of an empty sequence
    of points yields nothing, so unpacking it into [x_list, y_list] raises
    [ValueError]. *)
Definition extend_bounding_box (bounding_box : bbox)
    (points : list (pyval * pyval)) : result bbox :=
  let '(minx, miny, width, height) := bounding_box in
  let maxx := if isinf minx then NInf else fadd minx width in
  let maxy := if isinf miny then NInf else fadd miny height in
  match points with
  | [] => Raise ValueError
  | _ :: _ =>
      let x_list := map fst points in
      let y_list := map snd points in
      minx' ← py_min (VNum minx) x_list;
      miny' ← py_min (VNum miny) y_list;
      maxx' ← py_max (VNum maxx) x_list;
      maxy' ← py_max (VNum maxy) y_list;
      w ← vsub maxx' minx';
      h ← vsub maxy' miny';
      minx'' ← as_float minx';
      miny'' ← as_float miny';
      Value (minx'', miny'', w, h)
  end.

(** [is_valid_bounding_box]: [None] is falsy, a 4-tuple is truthy. *)
Definition is_valid_bounding_box (bounding_box : option bbox) : bool :=
  match bounding_box with
  | None => false
  | Some (minx, miny, _, _) => negb (isinf (fadd minx miny))
  end.

(** [is_non_empty_bounding_box]: valid and [0 not in bounding_box[2:]]. *)
Definition is_non_empty_bounding_box (bounding_box : option bbox) : bool :=
  is_valid_bounding_box bounding_box &&
  match bounding_box with
  | None => false
  | Some (_, _, width, height) =>
      negb (feq (Fin 0) width || feq (Fin 0) height)
  end.

(** [combine_bounding_box] *)
Definition combine_bounding_box (bounding_box : bbox)
    (another_bounding_box : option bbox) : result bbox :=
  if is_valid_bounding_box another_bounding_box then
    match another_bounding_box with
    | Some (minx, miny, width, height) =>
        let maxx := fadd minx width in
        let maxy := fadd miny height in
        extend_bounding_box bounding_box
          [(VNum minx, VNum miny); (VNum maxx, VNum maxy)]
    | None => Value bounding_box
    end
  else Value bounding_box.

(** ** The [math] functions used by the arc solver *)

Definition Rgtb (a b : R) : bool := Rltb b a.

(** [a / b] on floats *)
Definition py_div (a b : R) : result R :=
  if Reqb b 0 then Raise ZeroDivisionError else Value (a / b).

(** [math.sqrt] *)
Definition py_sqrt (a : R) : result R :=
  if Rltb a 0 then Raise ValueError else Value (sqrt a).

(** [math.acos] *)
Definition py_acos (a : R) : result R :=
  if Rltb a (-1) || Rltb 1 a then Raise ValueError else Value (acos a).

(** Rounding towards zero, as C's [fmod] does with the quotient. *)
Definition Ztrunc (a : R) : Z :=
  if Rltb a 0 then (- Int_part (- a))%Z else Int_part a.

(** [math.fmod] *)
Definition py_fmod (a b : R) : result R :=
  if Reqb b 0 then Raise ValueError else Value (a - b * IZR (Ztrunc (a / b))).

(** [math.radians] *)
Definition radians (d : R) : R := d * PI / 180.

(** Two-argument [min] and [max] on finite floats: the first argument is
    kept unless the second is strictly smaller (larger). *)
Definition min2 (a b : R) : R := if Rltb b a then b else a.
Definition max2 (a b : R) : R := if Rgtb b a then b else a.

(** ** Elliptical arcs *)

(** [angle]: the angle between vector (1,0) and vector (bx,by), in exact
    arithmetic: [bx * bx + by * by] neither overflows nor underflows. *)
Definition angle (bx by_ : R) : result R :=
  s ← py_sqrt (bx * bx + by_ * by_);
  q ← py_div bx s;
  a ← py_acos q;
  py_fmod (2 * PI + (if Rgtb by_ 0 then 1 else -1) * a) (2 * PI).

(** The guard of the four final [if]s of the solver: the extremum at angle
    [t] is not reached by the arc. *)
Definition not_swept (other_arc : bool) (angle1 angle2 t : R) : bool :=
  (negb other_arc && (Rgtb angle1 t || Rltb angle2 t)) ||
  (other_arc && negb (Rgtb angle1 t || Rltb angle2 t)).

(** Lines 320-344 of the solver: from the extrema of the full ellipse and
    their angles to the returned tuple. *)
Definition arc_sweep (x1 y1 : R) (sweep : bool) (x y cx cy : R)
    (minx tminx maxx tmaxx miny tminy maxy tmaxy : R)
    : result (R * R * R * R) :=
  angle1 ← angle (x1 - cx) (y1 - cy);
  angle2 ← angle (x - cx) (y - cy);
  let '(angle1, angle2) :=
    if negb sweep then (angle2, angle1) else (angle1, angle2) in
  let '(angle1, angle2, other_arc) :=
    if Rgtb angle1 angle2 then (angle2, angle1, true)
    else (angle1, angle2, false) in
  let minx := if not_swept other_arc angle1 angle2 tminx
              then min2 x x1 else minx in
  let maxx := if not_swept other_arc angle1 angle2 tmaxx
              then max2 x x1 else maxx in
  let miny := if not_swept other_arc angle1 angle2 tminy
              then min2 y y1 else miny in
  let maxy := if not_swept other_arc angle1 angle2 tmaxy
              then max2 y y1 else maxy in
  Value (minx, miny, maxx - minx, maxy - miny).

(** Lines 274-344: the center, the extrema of the full ellipse (three
    cases on [phi]) and the sweep test. *)
Definition arc_extrema (x1 y1 rx ry phi : R) (sweep : bool) (x y : R)
    (cxprime cyprime : R) : result (R * R * R * R) :=
  let cx := cxprime * cos phi - cyprime * sin phi + (x1 + x) / 2 in
  let cy := cxprime * sin phi + cyprime * cos phi + (y1 + y) / 2 in
  if Reqb phi 0 || Reqb phi PI then
    let minx := cx - rx in
    tminx ← angle (- rx) 0;
    let maxx := cx + rx in
    tmaxx ← angle rx 0;
    let miny := cy - ry in
    tminy ← angle 0 (- ry);
    let maxy := cy + ry in
    tmaxy ← angle 0 ry;
    arc_sweep x1 y1 sweep x y cx cy minx tminx maxx tmaxx miny tminy maxy tmaxy
  else if Reqb phi (PI / 2) || Reqb phi (3 * PI / 2) then
    let minx := cx - ry in
    tminx ← angle (- ry) 0;
    let maxx := cx + ry in
    tmaxx ← angle ry 0;
    let miny := cy - rx in
    tminy ← angle 0 (- rx);
    let maxy := cy + rx in
    tmaxy ← angle 0 rx;
    arc_sweep x1 y1 sweep x y cx cy minx tminx maxx tmaxx miny tminy maxy tmaxy
  else
    q ← py_div (ry * tan phi) rx;
    let tminx := - atan q in
    q ← py_div (ry * tan phi) rx;
    let tmaxx := PI - atan q in
    let minx := cx + rx * cos tminx * cos phi - ry * sin tminx * sin phi in
    let maxx := cx + rx * cos tmaxx * cos phi - ry * sin tmaxx * sin phi in
    let '(minx, maxx, tminx, tmaxx) :=
      if Rgtb minx maxx then (maxx, minx, tmaxx, tminx)
      else (minx, maxx, tminx, tmaxx) in
    let tmp_y := cy + rx * cos tminx * sin phi + ry * sin tminx * cos phi in
    tminx ← angle (minx - cx) (tmp_y - cy);
    let tmp_y := cy + rx * cos tmaxx * sin phi + ry * sin tmaxx * cos phi in
    tmaxx ← angle (maxx - cx) (tmp_y - cy);
    q ← py_div ry (tan phi * rx);
    let tminy := atan q in
    q ← py_div ry (tan phi * rx);
    let tmaxy := atan q + PI in
    let miny := cy + rx * cos tminy * sin phi + ry * sin tminy * cos phi in
    let maxy := cy + rx * cos tmaxy * sin phi + ry * sin tmaxy * cos phi in
    let '(miny, maxy, tminy, tmaxy) :=
      if Rgtb miny maxy then (maxy, miny, tmaxy, tminy)
      else (miny, maxy, tminy, tmaxy) in
    let tmp_x := cx + rx * cos tminy * cos phi - ry * sin tminy * sin phi in
    tminy ← angle (tmp_x - cx) (miny - cy);
    let tmp_x := cx + rx * cos tmaxy * cos phi - ry * sin tmaxy * sin phi in
    tmaxy ← angle (tmp_x - cx) (maxy - cy);
    arc_sweep x1 y1 sweep x y cx cy minx tminx maxx tmaxx miny tminy maxy tmaxy.

(** What the radius-correction branch (lines 262-267) hands on: either the
    early [return] of the endpoint tuple, or the rescaled radii. *)
Inductive correction : Type :=
| Fallback (t : R * R * R * R)
| Radii (rx ry : R).

(** Lines 262-267, entered when the first [radicant] is negative. *)
Definition arc_radius_correction (x1 y1 rx ry x y x1prime y1prime : R)
    : result correction :=
  ratio ← py_div rx ry;
  q ← py_div (x1prime ^ 2) (ratio ^ 2);
  let radicant := y1prime ^ 2 + q in
  if Rltb radicant 0 then
    Value (Fallback (min2 x x1, min2 y y1, max2 x x1, max2 y y1))
  else
    ry ← py_sqrt radicant;
    let rx := ratio * ry in
    Value (Radii rx ry).

(** [bounding_box_elliptical_arc] *)
Definition bounding_box_elliptical_arc (x1 y1 rx ry phi : R)
    (large sweep : bool) (x y : R) : result (R * R * R * R) :=
  let rx := Rabs rx in
  let ry := Rabs ry in
  if Reqb rx 0 || Reqb ry 0 then
    Value (min2 x x1, min2 y y1, max2 x x1, max2 y y1)
  else
    let x1prime := cos phi * (x1 - x) / 2 + sin phi * (y1 - y) / 2 in
    let y1prime := - sin phi * (x1 - x) / 2 + cos phi * (y1 - y) / 2 in
    let radicant :=
      rx ^ 2 * ry ^ 2 - rx ^ 2 * y1prime ^ 2 - ry ^ 2 * x1prime ^ 2 in
    radicant ← py_div radicant (rx ^ 2 * y1prime ^ 2 + ry ^ 2 * x1prime ^ 2);
    if Rltb radicant 0 then
      c ← arc_radius_correction x1 y1 rx ry x y x1prime y1prime;
      match c with
      | Fallback t => Value t
      | Radii rx ry => arc_extrema x1 y1 rx ry phi sweep x y 0 0
      end
    else
      s ← py_sqrt radicant;
      let factor := (if Bool.eqb large sweep then -1 else 1) * s in
      cxprime ← py_div (factor * rx * y1prime) ry;
      cyprime ← py_div (- factor * ry * x1prime) rx;
      arc_extrema x1 y1 rx ry phi sweep x y cxprime cyprime.

(** ** [str] methods *)

Local Open Scope string_scope.

(** [c.isspace()] for a byte. *)
Definition isspace (c : ascii) : bool :=
  let n := nat_of_ascii c in
  ((9 <=? n) && (n <=? 13) || (28 <=? n) && (n <=? 32))%nat.

(** [c.isdigit()] for a byte. *)
Definition isdigit (c : ascii) : bool :=
  let n := nat_of_ascii c in ((48 <=? n) && (n <=? 57))%nat.

Fixpoint lstrip (s : string) : string :=
  match s with
  | String c s' => if isspace c then lstrip s' else s
  | EmptyString => EmptyString
  end.

Fixpoint rstrip (s : string) : string :=
  match s with
  | String c s' =>
      match rstrip s' with
      | EmptyString => if isspace c then EmptyString else String c EmptyString
      | r => String c r
      end
  | EmptyString => EmptyString
  end.

(** [s.strip()] *)
Definition strip (s : string) : string := rstrip (lstrip s).

(** [s.split(' ', 1)]: a list of one or two strings. *)
Fixpoint split1 (s : string) : list string :=
  match s with
  | EmptyString => [EmptyString]
  | String c s' =>
      if Ascii.eqb c " " then [EmptyString; s']
      else match split1 s' with
           | a :: rest => String c a :: rest
           | [] => [String c EmptyString]
           end
  end.

(** [a, b = l]: unpacking into two targets. *)
Definition unpack2 {A} (l : list A) : result (A * A) :=
  match l with
  | [a; b] => Value (a, b)
  | _ => Raise ValueError
  end.

(** [l[0]] on a list that [split] returned. *)
Definition first_item (l : list string) : result string :=
  match l with
  | a :: _ => Value a
  | [] => Raise IndexError
  end.

Fixpoint is_prefix (p s : string) : bool :=
  match p, s with
  | EmptyString, _ => true
  | String a p', String b s' => Ascii.eqb a b && is_prefix p' s'
  | String _ _, EmptyString => false
  end.

(** [sub in s] for strings: [sub] occurs in [s]. *)
Fixpoint str_in (sub s : string) : bool :=
  is_prefix sub s ||
  match s with
  | String _ s' => str_in sub s'
  | EmptyString => false
  end.

(** [s.replace(c, ' c ')] for a one-character [c]. *)
Fixpoint space_out (c : ascii) (s : string) : string :=
  match s with
  | EmptyString => EmptyString
  | String a s' =>
      if Ascii.eqb a c
      then String " " (String c (String " " (space_out c s')))
      else String a (space_out c s')
  end.

(** [s[0]] *)
Definition str_first (s : string) : result string :=
  match s with
  | String c _ => Value (String c EmptyString)
  | EmptyString => Raise IndexError
  end.

(** [s[1:]] *)
Definition str_tail (s : string) : string :=
  match s with
  | String _ s' => s'
  | EmptyString => EmptyString
  end.

(** [s[-1].isdigit()] *)
Fixpoint last_isdigit (s : string) : result bool :=
  match s with
  | EmptyString => Raise IndexError
  | String c EmptyString => Value (isdigit c)
  | String _ s' => last_isdigit s'
  end.

(** ** Nodes

    A node is a [dict] from attribute names to values with a tag and
    children.  The values are the [str] attributes of the element and,
    under the keys ['bounding_box'] and ['text_bounding_box'], tuples. *)
Inductive pyobj : Type :=
| OStr (s : string)
| OBox (b : bbox).

#[local] Unset Elimination Schemes.
Inductive node : Type :=
| Node (tag : string) (dict : gmap string pyobj) (children : list node).
#[local] Set Elimination Schemes.

Definition tag (n : node) : string := let 'Node t _ _ := n in t.
Definition dict (n : node) : gmap string pyobj := let 'Node _ d _ := n in d.
Definition children (n : node) : list node := let 'Node _ _ c := n in c.

(** [node[key] = value] *)
Definition setitem (n : node) (key : string) (value : pyobj) : node :=
  let 'Node t d c := n in Node t (<[key := value]> d) c.

(** [node.get(key)] *)
Definition get (n : node) (key : string) : option pyobj := dict n !! key.

(** [node.get(key, default)] with a [str] default. *)
Definition get_default (n : node) (key default : string) : pyobj :=
  match dict n !! key with
  | Some v => v
  | None => OStr default
  end.

(** A value used where the code expects a tuple or [None], as
    [is_valid_bounding_box] evaluates it: [None] and [''] are falsy, a
    tuple is itself, and for any other [str] the test
    [isinf(bounding_box[0] + bounding_box[1])] raises. *)
Definition as_box (v : option pyobj) : result (option bbox) :=
  match v with
  | None => Value None
  | Some (OBox b) => Value (Some b)
  | Some (OStr EmptyString) => Value None
  | Some (OStr (String _ EmptyString)) => Raise IndexError
  | Some (OStr _) => Raise TypeError
  end.

(** ** The evaluators

    The builtins [float] and [int] on strings, the names imported from
    [helpers] ([PATH_LETTERS], [normalize], [point]) and the collaborators
    of [bounding_box_use] ([parse_url], [Tree], [match_features]) are not
    part of this module: the evaluators are parametrised by them. *)

Record path_state : Type := PathState {
  letter : string;
  path_data : string;
  bounding_box : bbox;
  previous_x : R;
  previous_y : R
}.

Inductive method : Set :=
| m_rect | m_circle | m_ellipse | m_line | m_polyline | m_path | m_text
| m_group | m_use.

Section Evaluators.

(** [float(s)] for a string, restricted to finite values: the strings
    that Python reads as [inf] or [nan] are outside this model. *)
Variable py_float : string -> result R.
(** [int(s)] for a string. *)
Variable py_int : string -> result Z.
(** [helpers.PATH_LETTERS], a string of one-letter commands. *)
Variable PATH_LETTERS : string.
(** [helpers.normalize] *)
Variable normalize : string -> string.
(** [helpers.point(None, string)]: two numbers and the trailing text. *)
Variable point : string -> result (R * R * string).
(** [Tree(url=parse_url(node.get(href)).geturl(), parent=node)] *)
Variable Tree : node -> result node.
(** [match_features(tree.xml_tree)] *)
Variable match_features : node -> bool.

(** [float(node.get(key, default))] *)
Definition float_attr (n : node) (key default : string) : result R :=
  match get_default n key default with
  | OStr s => py_float s
  | OBox _ => Raise TypeError
  end.

Definition box_of (t : R * R * R * R) : bbox :=
  let '(a, b, c, d) := t in (Fin a, Fin b, Fin c, Fin d).

(** [bounding_box_rect] *)
Definition bounding_box_rect (n : node) : result bbox :=
  x ← float_attr n "x" "0";
  y ← float_attr n "y" "0";
  w ← float_attr n "width" "0";
  let width := max2 w 0 in
  h ← float_attr n "height" "0";
  let height := max2 h 0 in
  Value (box_of (x, y, width, height)).

(** [bounding_box_circle] *)
Definition bounding_box_circle (n : node) : result bbox :=
  center_x ← float_attr n "cx" "0";
  center_y ← float_attr n "cy" "0";
  r ← float_attr n "r" "0";
  let radius := max2 r 0 in
  Value (box_of (center_x - radius, center_y - radius,
                 2 * radius, 2 * radius)).

(** [bounding_box_ellipse] *)
Definition bounding_box_ellipse (n : node) : result bbox :=
  center_x ← float_attr n "cx" "0";
  center_y ← float_attr n "cy" "0";
  rx ← float_attr n "rx" "0";
  let radius_x := max2 rx 0 in
  ry ← float_attr n "ry" "0";
  let radius_y := max2 ry 0 in
  Value (box_of (center_x - radius_x, center_y - radius_y,
                 2 * radius_x, 2 * radius_y)).

(** [bounding_box_line] *)
Definition bounding_box_line (n : node) : result bbox :=
  x1 ← float_attr n "x1" "0";
  y1 ← float_attr n "y1" "0";
  x2 ← float_attr n "x2" "0";
  y2 ← float_attr n "y2" "0";
  let x := min2 x1 x2 in
  let y := min2 y1 y2 in
  let width := max2 x1 x2 - x in
  let height := max2 y1 y2 - y in
  Value (box_of (x, y, width, height)).

(** A [str] attribute on which a [str] method is called. *)
Definition str_attr (n : node) (key default : string) : result string :=
  match get_default n key default with
  | OStr s => Value s
  | OBox _ => Raise AttributeError
  end.

Definition num_point (p : R * R) : pyval * pyval :=
  (VNum (Fin (fst p)), VNum (Fin (snd p))).

(** The [while points:] loop of [bounding_box_polyline]. *)
Fixpoint polyline_loop (fuel : nat) (points : list (R * R))
    (normalized_points : string) : result (list (R * R)) :=
  match points with
  | [] => Value points
  | _ :: _ =>
      match fuel with
      | O => OutOfFuel
      | S fuel' =>
          '(x, y, normalized_points) ← point normalized_points;
          polyline_loop fuel' (points ++ [(x, y)]) normalized_points
      end
  end.

(** [bounding_box_polyline] *)
Definition bounding_box_polyline (fuel : nat) (n : node) : result bbox :=
  let bounding_box := EMPTY_BOUNDING_BOX in
  let points := [] in
  s ← str_attr n "points" "";
  let normalized_points := normalize s in
  points ← polyline_loop fuel points normalized_points;
  extend_bounding_box bounding_box (map num_point points).

(** One flag of an [A] command, "the crazy parser": the first character
    of [path_data], extended character by character until it ends in a
    digit.  Taking [path_data[0]] of an exhausted string raises
    [IndexError]. *)
Fixpoint scan_flag_loop (fuel : nat) (flag path_data : string)
    : result (string * string) :=
  d ← last_isdigit flag;
  if (d : bool) then Value (flag, path_data)
  else
    match fuel with
    | O => OutOfFuel
    | S fuel' =>
        c ← str_first path_data;
        scan_flag_loop fuel' (flag ++ c) (strip (str_tail path_data))
    end.

Definition scan_flag (fuel : nat) (path_data : string)
    : result (string * string) :=
  c ← str_first path_data;
  scan_flag_loop fuel c (strip (str_tail path_data)).

(** [bool(int(s))] *)
Definition flag_value (s : string) : result bool :=
  n ← py_int s;
  Value (negb (n =? 0)%Z).

(** [x += previous_x] for the [str] token of an [H] or [V] command. *)
Definition vadd (a b : pyval) : result pyval :=
  match a, b with
  | VNum x, VNum y => Value (VNum (fadd x y))
  | VStr x, VStr y => Value (VStr (x ++ y))
  | _, _ => Raise TypeError
  end.

(** The pen is a number wherever the model reads it: a value stored
    into it has been compared with a float by [extend_bounding_box]. *)
Definition as_real (v : pyval) : result R :=
  match v with
  | VNum (Fin r) => Value r
  | _ => Raise TypeError
  end.

(** The body of [if letter in 'aA':]. *)
Definition arc_command (fuel : nat) (st : path_state) : result path_state :=
  let 'PathState letter path_data bounding_box previous_x previous_y := st in
  '(rx, ry, path_data) ← point path_data;
  '(rotation, path_data) ← unpack2 (split1 path_data);
  rotation ← py_float rotation;
  let rotation := radians rotation in
  '(large, path_data) ← scan_flag fuel path_data;
  '(sweep, path_data) ← scan_flag fuel path_data;
  large ← flag_value large;
  sweep ← flag_value sweep;
  '(x, y, path_data) ← point path_data;
  let '(x, y) :=
    if String.eqb letter "a" then (x + previous_x, y + previous_y)
    else (x, y) in
  arc_bounding_box ← bounding_box_elliptical_arc
    previous_x previous_y rx ry rotation large sweep x y;
  let '(b0, b1, b2, b3) := arc_bounding_box in
  let points := [(b0, b1); (b2, b3)] in
  bounding_box ← extend_bounding_box bounding_box (map num_point points);
  Value (PathState letter path_data bounding_box x y).

(** The body of [elif letter in 'cC':]. *)
Definition curve_command (st : path_state) : result path_state :=
  let 'PathState letter path_data bounding_box previous_x previous_y := st in
  '(x1, y1, path_data) ← point path_data;
  '(x2, y2, path_data) ← point path_data;
  '(x, y, path_data) ← point path_data;
  let '(x1, y1, x2, y2, x, y) :=
    if String.eqb letter "c"
    then (x1 + previous_x, y1 + previous_y, x2 + previous_x,
          y2 + previous_y, x + previous_x, y + previous_y)
    else (x1, y1, x2, y2, x, y) in
  bounding_box ← extend_bounding_box bounding_box
    (map num_point [(x1, y1); (x2, y2); (x, y)]);
  Value (PathState letter path_data bounding_box x y).

(** The body of [elif letter in 'hH':]; [x] is the [str] that [split]
    returned. *)
Definition horizontal_command (st : path_state) : result path_state :=
  let 'PathState letter path_data bounding_box previous_x previous_y := st in
  '(x, path_data) ← unpack2 (split1 (path_data ++ " "));
  let x := VStr x in
  x ← (if String.eqb letter "h" then vadd x (VNum (Fin previous_x))
       else Value x);
  bounding_box ← extend_bounding_box bounding_box
    [(x, VNum (Fin previous_y))];
  previous_x ← as_real x;
  Value (PathState letter path_data bounding_box previous_x previous_y).

(** The body of [elif letter in 'lLmMtT':]. *)
Definition line_command (st : path_state) : result path_state :=
  let 'PathState letter path_data bounding_box previous_x previous_y := st in
  '(x, y, path_data) ← point path_data;
  let '(x, y) :=
    if str_in letter "lmt" then (x + previous_x, y + previous_y)
    else (x, y) in
  bounding_box ← extend_bounding_box bounding_box (map num_point [(x, y)]);
  Value (PathState letter path_data bounding_box x y).

(** The body of [elif letter in 'qQsS':]. *)
Definition quadratic_command (st : path_state) : result path_state :=
  let 'PathState letter path_data bounding_box previous_x previous_y := st in
  '(x1, y1, path_data) ← point path_data;
  '(x, y, path_data) ← point path_data;
  let '(x1, y1, x, y) :=
    if str_in letter "qs"
    then (x1 + previous_x, y1 + previous_y,
          x + previous_x, y + previous_y)
    else (x1, y1, x, y) in
  bounding_box ← extend_bounding_box bounding_box
    (map num_point [(x1, y1); (x, y)]);
  Value (PathState letter path_data bounding_box x y).

(** The body of [elif letter in 'vV':]; [y] is the [str] that [split]
    returned. *)
Definition vertical_command (st : path_state) : result path_state :=
  let 'PathState letter path_data bounding_box previous_x previous_y := st in
  '(y, path_data) ← unpack2 (split1 (path_data ++ " "));
  let y := VStr y in
  y ← (if String.eqb letter "v" then vadd y (VNum (Fin previous_y))
       else Value y);
  bounding_box ← extend_bounding_box bounding_box
    [(VNum (Fin previous_x), y)];
  previous_y ← as_real y;
  Value (PathState letter path_data bounding_box previous_x previous_y).

(** The [if]/[elif] chain on [letter]. *)
Definition dispatch_command (fuel : nat) (st : path_state)
    : result path_state :=
  if str_in (letter st) "aA" then arc_command fuel st
  else if str_in (letter st) "cC" then curve_command st
  else if str_in (letter st) "hH" then horizontal_command st
  else if str_in (letter st) "lLmMtT" then line_command st
  else if str_in (letter st) "qQsS" then quadratic_command st
  else if str_in (letter st) "vV" then vertical_command st
  else Value st.

(** One turn of [while path_data:]. *)
Definition path_step (fuel : nat) (st : path_state) : result path_state :=
  let 'PathState letter path_data bounding_box previous_x previous_y := st in
  let path_data := strip path_data in
  tok ← first_item (split1 path_data);
  '(letter, path_data) ←
    (if str_in tok PATH_LETTERS
     then unpack2 (split1 (path_data ++ " "))
     else Value (letter, path_data));
  st ← dispatch_command fuel
         (PathState letter path_data bounding_box previous_x previous_y);
  let 'PathState letter path_data bounding_box previous_x previous_y := st in
  Value (PathState letter (strip path_data) bounding_box
           previous_x previous_y).

(** [while path_data:] with [n] turns allowed. *)
Fixpoint path_loop (n fuel : nat) (st : path_state) : result bbox :=
  match path_data st with
  | EmptyString => Value (bounding_box st)
  | String _ _ =>
      match n with
      | O => OutOfFuel
      | S n' => st' ← path_step fuel st; path_loop n' fuel st'
      end
  end.

(** [path_data.replace(letter, ' {} '.format(letter))] for every letter
    of [PATH_LETTERS]. *)
Fixpoint space_out_letters (letters : string) (path_data : string)
    : string :=
  match letters with
  | EmptyString => path_data
  | String c letters' => space_out_letters letters' (space_out c path_data)
  end.

(** [bounding_box_path] *)
Definition bounding_box_path (fuel : nat) (n : node) : result bbox :=
  path_data ← str_attr n "d" "";
  let path_data := space_out_letters PATH_LETTERS path_data in
  let path_data := normalize path_data in
  path_loop fuel fuel (PathState "M" path_data EMPTY_BOUNDING_BOX 0 0).

(** [bounding_box_text] *)
Definition bounding_box_text (n : node) : option pyobj :=
  get n "text_bounding_box".

(** [BOUNDING_BOX_METHODS] *)
Definition BOUNDING_BOX_METHODS : gmap string method :=
  list_to_map
    [("rect", m_rect); ("circle", m_circle); ("ellipse", m_ellipse);
     ("line", m_line); ("polyline", m_polyline); ("polygon", m_polyline);
     ("path", m_path); ("text", m_text); ("tspan", m_text);
     ("textPath", m_text); ("g", m_group); ("use", m_use);
     ("marker", m_group)].

(** The [for child in node.children] loop of [bounding_box_group];
    [calc] is [calculate_bounding_box], which may fill the cache of the
    child it is given. *)
Fixpoint group_loop (calc : node -> result (node * option pyobj))
    (bounding_box : bbox) (children : list node)
    : result (list node * bbox) :=
  match children with
  | [] => Value ([], bounding_box)
  | child :: rest =>
      '(child, r) ← calc child;
      another ← as_box r;
      bounding_box ← combine_bounding_box bounding_box another;
      '(rest, bounding_box) ← group_loop calc bounding_box rest;
      Value (child :: rest, bounding_box)
  end.

(** [BOUNDING_BOX_METHODS[node.tag](node)]: the node as the call leaves
    it and the value returned. *)
Definition call_method (calc : node -> result (node * option pyobj))
    (fuel : nat) (m : method) (n : node) : result (node * option pyobj) :=
  let box (r : result bbox) : result (node * option pyobj) :=
    b ← r; Value (n, Some (OBox b)) in
  match m with
  | m_rect => box (bounding_box_rect n)
  | m_circle => box (bounding_box_circle n)
  | m_ellipse => box (bounding_box_ellipse n)
  | m_line => box (bounding_box_line n)
  | m_polyline => box (bounding_box_polyline fuel n)
  | m_path => box (bounding_box_path fuel n)
  | m_text => Value (n, bounding_box_text n)
  | m_group =>
      '(children, b) ← group_loop calc EMPTY_BOUNDING_BOX (children n);
      Value (Node (tag n) (dict n) children, Some (OBox b))
  | m_use =>
      tree ← Tree n;
      if negb (match_features tree) then Value (n, None)
      else '(_, r) ← calc tree; Value (n, r)
  end.

(** [calculate_bounding_box]: [fuel] bounds the depth of the calls
    through groups and [use] references and the turns of every loop. *)
Fixpoint calculate_bounding_box (fuel : nat) (n : node)
    : result (node * option pyobj) :=
  match fuel with
  | O => OutOfFuel
  | S fuel' =>
      match get n "bounding_box", BOUNDING_BOX_METHODS !! tag n with
      | None, Some m =>
          '(n, bounding_box) ←
            call_method (calculate_bounding_box fuel') fuel' m n;
          b ← as_box bounding_box;
          if is_non_empty_bounding_box b then
            match bounding_box with
            | Some v =>
                let n := setitem n "bounding_box" v in
                Value (n, get n "bounding_box")
            | None => Value (n, get n "bounding_box")
            end
          else Value (n, get n "bounding_box")
      | _, _ => Value (n, get n "bounding_box")
      end
  end.

End Evaluators.

(** ** The builtins and the helpers on plain decimal data *)

Module Py.

(** The digits of [s] read in base ten after [acc]. *)
Fixpoint digits (s : string) (acc : Z) : option Z :=
  match s with
  | EmptyString => Some acc
  | String c s' =>
      if isdigit c
      then digits s' (10 * acc + (Z.of_nat (nat_of_ascii c) - 48))%Z
      else None
  end.

(** [s.split('.', 1)] *)
Fixpoint split_dot (s : string) : string * option string :=
  match s with
  | EmptyString => (EmptyString, None)
  | String c s' =>
      if Ascii.eqb c "."
      then (EmptyString, Some s')
      else let '(a, b) := split_dot s' in (String c a, b)
  end.

(** A leading sign and what follows it. *)
Definition signed (s : string) : bool * string :=
  match s with
  | String c s' =>
      if Ascii.eqb c "-" then (true, s')
      else if Ascii.eqb c "+" then (false, s')
      else (false, s)
  | EmptyString => (false, s)
  end.

(** [int(s)] on a decimal literal: surrounding whitespace, an optional
    sign, digits.  Anything else is a [ValueError]. *)
Definition int (s : string) : result Z :=
  let '(neg, body) := signed (strip s) in
  match body with
  | EmptyString => Raise ValueError
  | String _ _ =>
      match digits body 0 with
      | Some n => Value (if neg then - n else n)%Z
      | None => Raise ValueError
      end
  end.

(** [float(s)] on a decimal literal: surrounding whitespace, an optional
    sign, digits with an optional fraction.  Exponents and the spellings
    of the special values are left out and raise [ValueError] here. *)
Definition float (s : string) : result R :=
  let '(neg, body) := signed (strip s) in
  let sign (r : R) : R := if neg then - r else r in
  match split_dot body with
  | (EmptyString, None) | (EmptyString, Some EmptyString) => Raise ValueError
  | (ip, None) =>
      match digits ip 0 with
      | Some n => Value (sign (IZR n))
      | None => Raise ValueError
      end
  | (ip, Some fp) =>
      match digits (ip ++ fp) 0 with
      | Some n => Value (sign (IZR n / 10 ^ String.length fp))
      | None => Raise ValueError
      end
  end.

End Py.

Module Helpers.

(** Modelled from the spec: [helpers.PATH_LETTERS], the fixed path letter
    set [{M,L,H,V,C,S,Q,T,A}] in both cases. *)
Definition PATH_LETTERS : string := "MLHVCSQTAmlhvcsqta".

(** Modelled from the spec: the first pass of [helpers.normalize] over
    the characters: separators (whitespace, comma) become a space, a sign or a second decimal point opens a new token.  [dot]
    tells whether the current token has a decimal point. *)
Fixpoint separate (s : string) (dot : bool) : string :=
  match s with
  | EmptyString => EmptyString
  | String c s' =>
      if isspace c || Ascii.eqb c "," then String " " (separate s' false)
      else if Ascii.eqb c "-" then String " " (String c (separate s' false))
      else if Ascii.eqb c "." then
        if dot then String " " (String c (separate s' true))
        else String c (separate s' true)
      else if isdigit c then String c (separate s' dot)
      else String c (separate s' false)
  end.

(** Modelled from the spec: the second pass of [helpers.normalize]: runs
    of spaces become one space. *)
Fixpoint squeeze (s : string) : string :=
  match s with
  | String a ((String b _) as s') =>
      if Ascii.eqb a " " && Ascii.eqb b " " then squeeze s'
      else String a (squeeze s')
  | _ => s
  end.

(** Modelled from the spec: [helpers.normalize], which brings a list of
    numbers to single-space separated tokens: separators are whitespace
    and/or a comma, and consecutive numbers may be separated only by a
    sign or by a second decimal point ([1.5.3] is [1.5] then [.3], [1-2]
    is [1] then [-2]). *)
Definition normalize (s : string) : string :=
  strip (squeeze (separate s false)).

(** Modelled from the spec: the token step of [helpers.point]: the
    leading token of [s] and what follows its separator. *)
Fixpoint token (s : string) : string * string :=
  match s with
  | EmptyString => (EmptyString, EmptyString)
  | String c s' =>
      if Ascii.eqb c " " then (EmptyString, s')
      else let '(a, b) := token s' in (String c a, b)
  end.

(** Modelled from the spec: [helpers.point], the point stream tokenizer:
    it peels two leading numeric tokens and returns them with the
    remainder; on exhausted input it fails silently with [(0, 0, '')]. *)
Definition point (s : string) : result (R * R * string) :=
  let '(x, s) := token (lstrip s) in
  let '(y, s) := token (lstrip s) in
  match x, y with
  | String _ _, String _ _ =>
      x ← Py.float x;
      y ← Py.float y;
      Value (x, y, s)
  | _, _ => Value (0, 0, EmptyString)
  end.

End Helpers.

(** The path evaluator with the decimal helpers. *)
Definition path_box (fuel : nat) (d : string) : result bbox :=
  bounding_box_path Py.float Py.int Helpers.PATH_LETTERS Helpers.normalize
    Helpers.point fuel (Node "path" {[ "d" := OStr d ]} []).

(** A reference that does not resolve. *)
Definition no_tree (n : node) : result node := Raise ValueError.

(** The dispatcher with the decimal helpers. *)
Definition dispatch (fuel : nat) (n : node) : result (node * option pyobj) :=
  calculate_bounding_box Py.float Py.int Helpers.PATH_LETTERS
    Helpers.normalize Helpers.point no_tree (fun _ => true) fuel n.

(** A [text] node with the measured box [(0, 0, 1, 1)]. *)
Definition text_node : node :=
  Node "text" {[ "text_bounding_box" := OBox (Fin 0, Fin 0, Fin 1, Fin 1) ]} [].

(** A [rect] node of width 0 and height 40. *)
Definition flat_rect : node :=
  Node "rect" {[ "width" := OStr "0"; "height" := OStr "40" ]} [].

(** ** Predicates of the statements *)

Definition finite (f : pyfloat) : Prop :=
  match f with Fin _ => True | _ => False end.

(** [0 <= f] *)
Definition nonneg (f : pyfloat) : Prop :=
  match f with Fin r => 0 <= r | PInf => True | _ => False end.


(** The invariant of the data model on a valid box: finite corner,
    non-negative size. *)
Definition well_formed (b : bbox) : Prop :=
  let '(minx, miny, width, height) := b in
  finite minx /\ finite miny /\ nonneg width /\ nonneg height.

(** A box with finite components and a non-negative size. *)
Definition finite_box (b : bbox) : Prop :=
  exists x y w h : R, b = (Fin x, Fin y, Fin w, Fin h) /\ 0 <= w /\ 0 <= h.

(** The boxes a path or polyline accumulates: the empty box, then finite
    boxes. *)
Definition running_box (b : bbox) : Prop :=
  b = EMPTY_BOUNDING_BOX \/ finite_box b.

(** The smallest and the largest of [a] and the numbers of [xs]. *)
Definition min_list (a : R) (xs : list R) : R := fold_left Rmin xs a.
Definition max_list (a : R) (xs : list R) : R := fold_left Rmax xs a.

(** The point [(px, py)] lies in the box. *)
Definition inside (b : bbox) (p : R * R) : Prop :=
  exists x y w h : R,
    b = (Fin x, Fin y, Fin w, Fin h)
    /\ x <= fst p <= x + w /\ y <= snd p <= y + h.

(** Some branch of the [if]/[elif] chain of [bounding_box_path] takes
    [letter]. *)
Definition has_branch (letter : string) : bool :=
  str_in letter "aA" || str_in letter "cC" || str_in letter "hH"
  || str_in letter "lLmMtT" || str_in letter "qQsS" || str_in letter "vV".

(** [path_data.split(' ', 1)[0]] *)
Definition first_token (path_data : string) : string :=
  match split1 path_data with
  | a :: _ => a
  | [] => EmptyString
  end.

(** A child whose computation returns nothing or a finite box. *)
Definition measurable (calc : node -> result (node * option pyobj))
    (c : node) : Prop :=
  exists c' r, calc c = Value (c', r)
    /\ (r = None \/ exists bc, r = Some (OBox bc) /\ finite_box bc).

(** The unit square and a second square, for the instances. *)
Definition unit_box : bbox := (Fin 0, Fin 0, Fin 1, Fin 1).
Definition far_box : bbox := (Fin 2, Fin 3, Fin 1, Fin 1).

(** Nodes without attributes. *)
Definition bare (tag : string) (children : list node) : node :=
  Node tag ∅ children.

(** ** The box algebra on binary64

    The same two functions on the floats of the machine, with rounding,
    overflow to [inf] and [nan]. *)
Module Binary64.

Definition bbox : Type :=
  PrimFloat.float * PrimFloat.float * PrimFloat.float * PrimFloat.float.

(** [math.isinf] *)
Definition isinf (f : PrimFloat.float) : bool := PrimFloat.is_infinity f.

(** [min(first, *rest)] *)
Fixpoint py_min (acc : PrimFloat.float) (rest : list PrimFloat.float)
    : PrimFloat.float :=
  match rest with
  | [] => acc
  | item :: rest' =>
      py_min (if PrimFloat.ltb item acc then item else acc) rest'
  end.

(** [max(first, *rest)] *)
Fixpoint py_max (acc : PrimFloat.float) (rest : list PrimFloat.float)
    : PrimFloat.float :=
  match rest with
  | [] => acc
  | item :: rest' =>
      py_max (if PrimFloat.ltb acc item then item else acc) rest'
  end.

(** [extend_bounding_box] *)
Definition extend_bounding_box (bounding_box : bbox)
    (points : list (PrimFloat.float * PrimFloat.float)) : result bbox :=
  let '(minx, miny, width, height) := bounding_box in
  let maxx :=
    if isinf minx then PrimFloat.neg_infinity else PrimFloat.add minx width in
  let maxy :=
    if isinf miny then PrimFloat.neg_infinity
    else PrimFloat.add miny height in
  match points with
  | [] => Raise ValueError
  | _ :: _ =>
      let x_list := map fst points in
      let y_list := map snd points in
      let minx := py_min minx x_list in
      let miny := py_min miny y_list in
      let maxx := py_max maxx x_list in
      let maxy := py_max maxy y_list in
      Value (minx, miny, PrimFloat.sub maxx minx, PrimFloat.sub maxy miny)
  end.

(** [is_valid_bounding_box] *)
Definition is_valid_bounding_box (bounding_box : option bbox) : bool :=
  match bounding_box with
  | None => false
  | Some (minx, miny, _, _) => negb (isinf (PrimFloat.add minx miny))
  end.

(** [combine_bounding_box] *)
Definition combine_bounding_box (bounding_box : bbox)
    (another_bounding_box : option bbox) : result bbox :=
  if is_valid_bounding_box another_bounding_box then
    match another_bounding_box with
    | Some (minx, miny, width, height) =>
        let maxx := PrimFloat.add minx width in
        let maxy := PrimFloat.add miny height in
        extend_bounding_box bounding_box [(minx, miny); (maxx, maxy)]
    | None => Value bounding_box
    end
  else Value bounding_box.

End Binary64.


(** A box that [is_valid_bounding_box] turns down: a corner coordinate is
    infinite and the sum of the two is infinite too. *)
Definition invalid_box (b : bbox) : Prop :=
  let '(minx, miny, _, _) := b in
  match minx, miny with
  | PInf, PInf | PInf, Fin _ | Fin _, PInf => True
  | NInf, NInf | NInf, Fin _ | Fin _, NInf => True
  | _, _ => False
  end.

(** Some character of [s] is a digit. *)
Fixpoint has_digit (s : string) : bool :=
  match s with
  | EmptyString => false
  | String c s' => isdigit c || has_digit s'
  end.

(** * Properties *)

(** ** Comparisons *)

Lemma Rltb_true a b : Rltb a b = true <-> a < b.
Proof. unfold Rltb. destruct (Rlt_dec a b); split; intros; auto; discriminate. Qed.

Lemma Rltb_false a b : Rltb a b = false <-> b <= a.
Proof.
  unfold Rltb. destruct (Rlt_dec a b); split; intros; auto; try discriminate; lra.
Qed.

Lemma Reqb_true a b : Reqb a b = true <-> a = b.
Proof. unfold Reqb. destruct (Req_dec_T a b); split; intros; auto; discriminate. Qed.

Lemma Reqb_false a b : Reqb a b = false <-> a <> b.
Proof.
  unfold Reqb. destruct (Req_dec_T a b); split; intros; auto; try discriminate.
  contradiction.
Qed.

(** ** Box algebra *)

Ltac case_Rltb :=
  repeat match goal with
  | |- context [Rltb ?a ?b] =>
      let H := fresh "H" in
      destruct (Rlt_dec a b) as [H | H] eqn:?;
      [ rewrite (proj2 (Rltb_true a b) H)
      | rewrite (proj2 (Rltb_false a b) (Rnot_lt_le _ _ H)) ]
  end.

Lemma min2_le_l a b : min2 a b <= a.
Proof. unfold min2. case_Rltb; lra. Qed.

Lemma min2_le_r a b : min2 a b <= b.
Proof. unfold min2. case_Rltb; lra. Qed.

Lemma max2_ge_l a b : a <= max2 a b.
Proof. unfold max2, Rgtb. case_Rltb; lra. Qed.

Lemma max2_ge_r a b : b <= max2 a b.
Proof. unfold max2, Rgtb. case_Rltb; lra. Qed.

(** Combining with an invalid or absent box changes nothing. *)
Lemma combine_invalid (b : bbox) (other : option bbox) :
  is_valid_bounding_box other = false ->
  combine_bounding_box b other = Value b.
Proof. unfold combine_bounding_box. intros ->. reflexivity. Qed.

(** Combining a well-formed box with itself gives it back. *)
Lemma combine_self (b : bbox) :
  well_formed b -> combine_bounding_box b (Some b) = Value b.
Proof.
  destruct b as [[[minx miny] width] height].
  intros (Hx & Hy & Hw & Hh).
  destruct minx as [x | | |]; try contradiction.
  destruct miny as [y | | |]; try contradiction.
  destruct width as [w | | |]; try contradiction;
    destruct height as [h | | |]; try contradiction;
    simpl in Hw, Hh;
    unfold combine_bounding_box, extend_bounding_box; simpl;
    case_Rltb; simpl; case_Rltb; simpl; try lra;
    repeat f_equal; lra.
Qed.

Lemma combine_invalid_box (b other : bbox) :
  invalid_box other -> combine_bounding_box b (Some other) = Value b.
Proof.
  destruct other as [[[minx miny] width] height].
  destruct minx, miny; simpl; try contradiction; reflexivity.
Qed.

(** C9, amended.  In exact arithmetic, [Combine] is idempotent on every
    valid box (finite [minX] and [minY], [width >= 0], [height >= 0]):
    [Combine(b, b) = b]; and [Combine] returns its first argument unchanged
    whenever the second one is absent ([None]) or has an infinite corner
    coordinate with an infinite corner sum, as the empty box has. *)
Theorem combine_bounding_box_idempotent :
  (forall b : bbox, well_formed b -> combine_bounding_box b (Some b) = Value b)
  /\ (forall b other : bbox,
        invalid_box other -> combine_bounding_box b (Some other) = Value b)
  /\ (forall b : bbox, combine_bounding_box b None = Value b).
Proof.
  split; [exact combine_self | split; [exact combine_invalid_box |]].
  intros b. reflexivity.
Qed.

Section Rounding.

Import PrimFloat.
#[local] Set Warnings "-inexact-float".

(** C9 as stated: [Combine(b, b) = b] for every valid [b].  On binary64
    the box [(0.1, 0, 0.2, 1)] combined with itself has the width
    [(0.1 + 0.2) - 0.1], which is not [0.2]. *)
Lemma combine_binary64_not_idempotent :
  Binary64.is_valid_bounding_box (Some (0.1, 0, 0.2, 1)%float) = true
  /\ Binary64.combine_bounding_box (0.1, 0, 0.2, 1)%float
       (Some (0.1, 0, 0.2, 1)%float)
     = Value (0.1, 0, 0.20000000000000004, 1)%float
  /\ Binary64.combine_bounding_box (0.1, 0, 0.2, 1)%float
       (Some (0.1, 0, 0.2, 1)%float)
     <> Value (0.1, 0, 0.2, 1)%float.
Proof.
  split; [vm_compute; reflexivity |].
  split; [vm_compute; reflexivity |].
  intros H.
  apply (f_equal (fun r => match r with
                           | Value (_, _, w, _) => PrimFloat.eqb w 0.2%float
                           | _ => true
                           end)) in H.
  vm_compute in H. discriminate H.
Qed.

#[local] Set Warnings "+inexact-float".

End Rounding.

(** ** The elliptical-arc solver *)

Lemma Reqb_refl a : Reqb a a = true.
Proof. apply Reqb_true. reflexivity. Qed.

(** With a zero radius the solver returns the four extreme coordinates
    of the two endpoints. *)
Lemma arc_degenerate x1 y1 rx ry phi large sweep x y :
  rx = 0 \/ ry = 0 ->
  bounding_box_elliptical_arc x1 y1 rx ry phi large sweep x y
  = Value (min2 x x1, min2 y y1, max2 x x1, max2 y y1).
Proof.
  intros H. unfold bounding_box_elliptical_arc.
  destruct H as [-> | ->]; rewrite Rabs_R0, Reqb_refl.
  - reflexivity.
  - rewrite orb_true_r. reflexivity.
Qed.

Lemma min2_eval_r a b : b < a -> min2 a b = b.
Proof. intros H. unfold min2. rewrite (proj2 (Rltb_true b a) H). reflexivity. Qed.

Lemma min2_eval_l a b : a <= b -> min2 a b = a.
Proof. intros H. unfold min2. rewrite (proj2 (Rltb_false b a) H). reflexivity. Qed.

Lemma max2_eval_r a b : a < b -> max2 a b = b.
Proof.
  intros H. unfold max2, Rgtb. rewrite (proj2 (Rltb_true a b) H). reflexivity.
Qed.

Lemma max2_eval_l a b : b <= a -> max2 a b = a.
Proof.
  intros H. unfold max2, Rgtb. rewrite (proj2 (Rltb_false a b) H). reflexivity.
Qed.

(** C1.  The claim asks for [width >= 0] and [height >= 0] in every
    tuple the solver returns.  On the zero-radius arc from [(-10, -7)] to
    [(-5, -3)] the solver returns [(-10, -7, -5, -3)]: the third and
    fourth components are the largest coordinates, not a size, and both
    are negative although the tuple passes [is_valid_bounding_box]. *)
Theorem arc_zero_radius_negative_size :
  bounding_box_elliptical_arc (-10) (-7) 0 0 0 false false (-5) (-3)
  = Value (-10, -7, -5, -3)
  /\ is_valid_bounding_box (Some (box_of (-10, -7, -5, -3))) = true
  /\ ~ well_formed (box_of (-10, -7, -5, -3)).
Proof.
  split; [| split].
  - rewrite arc_degenerate by (left; reflexivity).
    rewrite (min2_eval_r (-5) (-10)), (min2_eval_r (-3) (-7)) by lra.
    rewrite (max2_eval_l (-5) (-10)), (max2_eval_l (-3) (-7)) by lra.
    reflexivity.
  - reflexivity.
  - simpl. lra.
Qed.

(** C2.  The claim asks, for a zero radius, for the rectangle
    [(min(x,x1), min(y,y1), |x-x1|, |y-y1|)].  On the zero-radius arc from
    [(1, 1)] to [(3, 4)] the solver returns [(1, 1, 3, 4)], the two
    corners, where the rectangle of the claim is [(1, 1, 2, 3)]. *)
Theorem arc_zero_radius_returns_corners :
  bounding_box_elliptical_arc 1 1 0 5 0 true true 3 4 = Value (1, 1, 3, 4)
  /\ (min2 3 1, min2 4 1, Rabs (3 - 1), Rabs (4 - 1)) = (1, 1, 2, 3)
  /\ (1, 1, 3, 4) <> (1, 1, 2, 3).
Proof.
  split; [| split].
  - rewrite arc_degenerate by (left; reflexivity).
    rewrite (min2_eval_r 3 1), (min2_eval_r 4 1) by lra.
    rewrite (max2_eval_l 3 1), (max2_eval_l 4 1) by lra.
    reflexivity.
  - rewrite (min2_eval_r 3 1), (min2_eval_r 4 1) by lra.
    rewrite !Rabs_pos_eq by lra.
    repeat f_equal; lra.
  - intros H. injection H as H1 H2. lra.
Qed.

(** C10.  In the radius-correction branch, entered with [rx > 0] and
    [ry > 0], the recomputed radicant [y1prime^2 + x1prime^2 / ratio^2]
    is never negative: the branch never takes the second endpoint
    fallback, its square root is defined, and it hands on the rescaled
    radii [ratio * sqrt radicant] and [sqrt radicant]. *)
Theorem radius_correction_never_falls_back
    (x1 y1 rx ry x y x1prime y1prime : R) :
  0 < rx -> 0 < ry ->
  let ratio := rx / ry in
  let radicant := y1prime ^ 2 + x1prime ^ 2 / ratio ^ 2 in
  0 <= radicant
  /\ py_sqrt radicant = Value (sqrt radicant)
  /\ arc_radius_correction x1 y1 rx ry x y x1prime y1prime
     = Value (Radii (ratio * sqrt radicant) (sqrt radicant)).
Proof.
  intros Hrx Hry ratio radicant.
  assert (Hratio : 0 < ratio) by (apply Rdiv_lt_0_compat; assumption).
  assert (Hrad : 0 <= radicant).
  { unfold radicant. apply Rplus_le_le_0_compat.
    - apply pow2_ge_0.
    - apply Rmult_le_pos; [apply pow2_ge_0 |].
      left. apply Rinv_0_lt_compat. apply pow_lt. exact Hratio. }
  assert (Hsqrt : py_sqrt radicant = Value (sqrt radicant)).
  { unfold py_sqrt. rewrite (proj2 (Rltb_false radicant 0) Hrad). reflexivity. }
  split; [exact Hrad | split; [exact Hsqrt |]].
  unfold arc_radius_correction, py_div.
  rewrite (proj2 (Reqb_false ry 0)) by lra. cbn [mbind result_bind].
  fold ratio.
  rewrite (proj2 (Reqb_false (ratio ^ 2) 0)).
  2:{ apply Rgt_not_eq. apply pow_lt. exact Hratio. }
  cbn [mbind result_bind]. fold radicant.
  rewrite (proj2 (Rltb_false radicant 0) Hrad).
  rewrite Hsqrt. reflexivity.
Qed.

(** ** Strings *)

Lemma lstrip_length s : (String.length (lstrip s) <= String.length s)%nat.
Proof.
  induction s as [| c s IH]; simpl; [lia |].
  destruct (isspace c); simpl; lia.
Qed.

Lemma rstrip_length s : (String.length (rstrip s) <= String.length s)%nat.
Proof.
  induction s as [| c s IH]; simpl; [lia |].
  destruct (rstrip s); [destruct (isspace c) |]; simpl in *; lia.
Qed.

Lemma strip_length s : (String.length (strip s) <= String.length s)%nat.
Proof.
  unfold strip. etransitivity; [apply rstrip_length | apply lstrip_length].
Qed.

Lemma lstrip_no_digit s : has_digit s = false -> has_digit (lstrip s) = false.
Proof.
  induction s as [| c s IH]; simpl; [auto |].
  intros H. apply orb_false_elim in H as [Hc Hs].
  destruct (isspace c); [auto |]. simpl. rewrite Hc, Hs. reflexivity.
Qed.

Lemma rstrip_no_digit s : has_digit s = false -> has_digit (rstrip s) = false.
Proof.
  induction s as [| c s IH]; simpl; [auto |].
  intros H. apply orb_false_elim in H as [Hc Hs].
  specialize (IH Hs).
  destruct (rstrip s); [destruct (isspace c) |]; simpl in *;
    rewrite ?Hc; auto.
Qed.

Lemma strip_no_digit s : has_digit s = false -> has_digit (strip s) = false.
Proof. intros H. apply rstrip_no_digit, lstrip_no_digit, H. Qed.

Lemma last_isdigit_app flag c :
  last_isdigit (flag ++ String c EmptyString) = Value (isdigit c).
Proof.
  induction flag as [| a flag IH]; simpl; [reflexivity |].
  rewrite IH. destruct (flag ++ String c EmptyString) eqn:E; [| reflexivity].
  destruct flag; discriminate.
Qed.

Lemma last_isdigit_total s :
  last_isdigit s = Raise IndexError \/ exists b, last_isdigit s = Value b.
Proof.
  induction s as [| c s IH]; simpl; [left; reflexivity |].
  destruct s; [right; eexists; reflexivity | exact IH].
Qed.

(** [(s + ' ').split(' ', 1)] always has two items. *)
Lemma split1_app_space s : exists a b, split1 (s ++ " ") = [a; b].
Proof.
  induction s as [| c s (a & b & IH)]; simpl.
  - exists EmptyString, EmptyString. reflexivity.
  - destruct (Ascii.eqb c " ").
    + eexists _, _. reflexivity.
    + rewrite IH. eexists _, _. reflexivity.
Qed.

(** ** The flag scanner of the [A] command *)

(** The scan stops within [len(path_data)] turns of its loop. *)
Lemma scan_flag_loop_stops fuel : forall flag path_data,
  (String.length path_data < fuel)%nat ->
  scan_flag_loop fuel flag path_data <> OutOfFuel.
Proof.
  induction fuel as [| fuel IH]; intros flag path_data Hlen; [lia |].
  simpl. destruct (last_isdigit_total flag) as [-> | [[|] ->]]; simpl;
    try discriminate.
  destruct path_data as [| c rest]; simpl; [discriminate |].
  apply IH. simpl in Hlen. pose proof (strip_length rest). lia.
Qed.

(** Without a digit ahead the scan ends in [IndexError]. *)
Lemma scan_flag_loop_no_digit fuel : forall flag c path_data,
  isdigit c = false ->
  has_digit path_data = false ->
  (String.length path_data < fuel)%nat ->
  scan_flag_loop fuel (flag ++ String c EmptyString) path_data
  = Raise IndexError.
Proof.
  induction fuel as [| fuel IH]; intros flag c path_data Hc Hd Hlen; [lia |].
  simpl. rewrite last_isdigit_app, Hc. simpl.
  destruct path_data as [| c' rest]; simpl; [reflexivity |].
  simpl in Hd. apply orb_false_elim in Hd as [Hc' Hrest].
  apply (IH (flag ++ String c EmptyString) c'); [exact Hc' | apply strip_no_digit, Hrest |].
  simpl in Hlen. pose proof (strip_length rest). lia.
Qed.

Lemma scan_flag_stops path_data fuel :
  (String.length path_data <= fuel)%nat ->
  scan_flag fuel path_data <> OutOfFuel.
Proof.
  destruct path_data as [| c rest]; intros Hlen; unfold scan_flag;
    cbn [str_first str_tail mbind result_bind]; [discriminate |].
  apply scan_flag_loop_stops.
  simpl in Hlen. pose proof (strip_length rest). lia.
Qed.

Lemma scan_flag_no_digit path_data fuel :
  has_digit path_data = false ->
  (String.length path_data <= fuel)%nat ->
  scan_flag fuel path_data = Raise IndexError.
Proof.
  destruct path_data as [| c rest]; intros Hd Hlen; unfold scan_flag;
    cbn [str_first str_tail mbind result_bind]; [reflexivity |].
  simpl in Hd. apply orb_false_elim in Hd as [Hc Hrest].
  apply (scan_flag_loop_no_digit fuel EmptyString c);
    [exact Hc | apply strip_no_digit, Hrest |].
  simpl in Hlen. pose proof (strip_length rest). lia.
Qed.

(** C7 as stated: some flag sequence makes the scan run forever, that
    is, exhaust every amount of fuel.  No path data does. *)
Lemma flag_scan_never_diverges :
  ~ exists path_data : string,
      forall fuel : nat, scan_flag fuel path_data = OutOfFuel.
Proof.
  intros [path_data H].
  apply (scan_flag_stops path_data (String.length path_data)); [lia |].
  apply H.
Qed.

(** C7, amended.  On every path data the flag scan stops within
    [len(path_data)] turns of its loop; on a run of non-digit characters
    with no digit in the remaining path data it stops with [IndexError],
    raised by [path_data[0]] on the exhausted string. *)
Theorem flag_scan_terminates :
  (forall (path_data : string) (fuel : nat),
     (String.length path_data <= fuel)%nat ->
     scan_flag fuel path_data <> OutOfFuel)
  /\ (forall (path_data : string) (fuel : nat),
        has_digit path_data = false ->
        (String.length path_data <= fuel)%nat ->
        scan_flag fuel path_data = Raise IndexError).
Proof. split; [exact scan_flag_stops | exact scan_flag_no_digit]. Qed.

(** ** Evaluating the solver on a semicircle *)

Lemma div_between a b lo hi :
  0 < b -> lo * b <= a -> a < hi * b -> lo <= a / b < hi.
Proof.
  intros Hb Hlo Hhi. split.
  - apply (Rmult_le_reg_r b); [lra |].
    replace (a / b * b) with a by (field; lra). lra.
  - apply (Rmult_lt_reg_r b); [lra |].
    replace (a / b * b) with a by (field; lra). lra.
Qed.

Lemma py_fmod_small a b : 0 <= a < b -> py_fmod a b = Value a.
Proof.
  intros [Ha Hb]. unfold py_fmod.
  rewrite (proj2 (Reqb_false b 0)) by lra.
  assert (Hq : 0 <= a / b < 1) by (apply div_between; lra).
  unfold Ztrunc. rewrite (proj2 (Rltb_false (a / b) 0)) by lra.
  rewrite <- (Int_part_spec (a / b) 0) by (simpl; lra).
  f_equal. simpl. lra.
Qed.

Lemma py_fmod_once a b : 0 < b -> b <= a < 2 * b -> py_fmod a b = Value (a - b).
Proof.
  intros Hb [Hl Hu]. unfold py_fmod.
  rewrite (proj2 (Reqb_false b 0)) by lra.
  assert (Hq : 1 <= a / b < 2) by (apply div_between; lra).
  unfold Ztrunc. rewrite (proj2 (Rltb_false (a / b) 0)) by lra.
  rewrite <- (Int_part_spec (a / b) 1) by (simpl; lra).
  f_equal. simpl. lra.
Qed.

(** [angle] once the length [n] of the vector is known. *)
Lemma angle_eval bx by_ n :
  0 < n -> sqrt (bx * bx + by_ * by_) = n -> -1 <= bx / n <= 1 ->
  angle bx by_
  = py_fmod (2 * PI + (if Rgtb by_ 0 then 1 else -1) * acos (bx / n)) (2 * PI).
Proof.
  intros Hn Hs Hq. unfold angle, py_sqrt.
  rewrite (proj2 (Rltb_false (bx * bx + by_ * by_) 0)) by nra.
  cbn [mbind result_bind]. rewrite Hs. unfold py_div.
  rewrite (proj2 (Reqb_false n 0)) by lra.
  cbn [mbind result_bind]. unfold py_acos.
  rewrite (proj2 (Rltb_false (bx / n) (-1))) by lra.
  rewrite (proj2 (Rltb_false 1 (bx / n))) by lra.
  reflexivity.
Qed.

Lemma sqrt_axis_l r : 0 <= r -> sqrt (r * r + 0 * 0) = r.
Proof.
  intros H. replace (r * r + 0 * 0) with (Rsqr r) by (unfold Rsqr; ring).
  apply sqrt_Rsqr, H.
Qed.

Lemma sqrt_axis_r r : 0 <= r -> sqrt (0 * 0 + r * r) = r.
Proof.
  intros H. replace (0 * 0 + r * r) with (Rsqr r) by (unfold Rsqr; ring).
  apply sqrt_Rsqr, H.
Qed.

Lemma angle_east r : 0 < r -> angle r 0 = Value 0.
Proof.
  intros H. rewrite (angle_eval r 0 r H (sqrt_axis_l r (Rlt_le _ _ H))).
  2:{ replace (r / r) with 1 by (field; lra). lra. }
  replace (r / r) with 1 by (field; lra).
  unfold Rgtb. rewrite (proj2 (Rltb_false 0 0)) by lra.
  rewrite acos_1. pose proof PI_RGT_0.
  rewrite py_fmod_once by lra. f_equal. lra.
Qed.

Lemma angle_west r : 0 < r -> angle (- r) 0 = Value PI.
Proof.
  intros H. rewrite (angle_eval (- r) 0 r H).
  2:{ replace (- r * - r + 0 * 0) with (r * r + 0 * 0) by ring.
      apply sqrt_axis_l; lra. }
  2:{ replace (- r / r) with (-1) by (field; lra). lra. }
  replace (- r / r) with (- (1)) by (field; lra).
  unfold Rgtb. rewrite (proj2 (Rltb_false 0 0)) by lra.
  rewrite acos_opp, acos_1. pose proof PI_RGT_0.
  rewrite py_fmod_small by lra. f_equal. lra.
Qed.

Lemma angle_north r : 0 < r -> angle 0 r = Value (PI / 2).
Proof.
  intros H. rewrite (angle_eval 0 r r H (sqrt_axis_r r (Rlt_le _ _ H))).
  2:{ replace (0 / r) with 0 by (field; lra). lra. }
  replace (0 / r) with 0 by (field; lra).
  unfold Rgtb. rewrite (proj2 (Rltb_true 0 r)) by lra.
  rewrite acos_0. pose proof PI_RGT_0.
  rewrite py_fmod_once by lra. f_equal. lra.
Qed.

Lemma angle_south r : 0 < r -> angle 0 (- r) = Value (3 * PI / 2).
Proof.
  intros H. rewrite (angle_eval 0 (- r) r H).
  2:{ replace (0 * 0 + - r * - r) with (0 * 0 + r * r) by ring.
      apply sqrt_axis_r; lra. }
  2:{ replace (0 / r) with 0 by (field; lra). lra. }
  replace (0 / r) with 0 by (field; lra).
  unfold Rgtb. rewrite (proj2 (Rltb_false 0 (- r))) by lra.
  rewrite acos_0. pose proof PI_RGT_0.
  rewrite py_fmod_small by lra. f_equal. lra.
Qed.

Lemma py_div_eval a b : b <> 0 -> py_div a b = Value (a / b).
Proof. intros H. unfold py_div. rewrite (proj2 (Reqb_false b 0) H). reflexivity. Qed.

Lemma py_sqrt_eval a : 0 <= a -> py_sqrt a = Value (sqrt a).
Proof. intros H. unfold py_sqrt. rewrite (proj2 (Rltb_false a 0) H). reflexivity. Qed.

(** Decide the comparisons of the goal whose operands are numerals. *)
Ltac decide_R :=
  repeat match goal with
  | |- context [Rltb ?a ?b] =>
      first [ rewrite (proj2 (Rltb_true a b)) by (simpl; lra)
            | rewrite (proj2 (Rltb_false a b)) by (simpl; lra) ]
  | |- context [Reqb ?a ?b] =>
      first [ rewrite (proj2 (Reqb_true a b)) by (simpl; lra)
            | rewrite (proj2 (Reqb_false a b)) by (simpl; lra) ]
  end.

Ltac run := cbn [mbind result_bind orb andb negb Bool.eqb].

(** Replace the operands of the first division by their values. *)
Ltac div_to a' b' :=
  match goal with
  | |- context [py_div ?a ?b] =>
      replace a with a' by (simpl; lra);
      replace b with b' by (simpl; lra);
      rewrite (py_div_eval a' b') by lra; run
  end.

Ltac angle_to a' b' :=
  match goal with
  | |- context [angle ?a ?b] =>
      replace (angle a b) with (angle a' b') by (f_equal; simpl; lra)
  end.

(** The solver on the arc of radius 5 from [(0,0)] to [(10,0)] with both
    flags set. *)
Lemma arc_semicircle :
  bounding_box_elliptical_arc 0 0 5 5 0 true true 10 0
  = Value (0, -5, 10, 5).
Proof.
  unfold bounding_box_elliptical_arc. cbv zeta.
  rewrite (Rabs_pos_eq 5) by lra.
  rewrite cos_0, sin_0.
  decide_R. run.
  div_to 0 625. decide_R.
  replace (0 / 625) with 0 by lra.
  rewrite py_sqrt_eval, sqrt_0 by lra. run.
  div_to 0 5. div_to 0 5.
  unfold arc_extrema. cbv zeta. rewrite cos_0, sin_0. decide_R. run.
  rewrite (angle_west 5), (angle_east 5), (angle_south 5), (angle_north 5) by lra.
  run. unfold arc_sweep.
  angle_to (- (5)) 0. rewrite (angle_west 5) by lra. run.
  angle_to 5 0. rewrite (angle_east 5) by lra. run.
  pose proof PI_RGT_0 as HPI.
  unfold not_swept, Rgtb, min2, max2, Rgtb. decide_R. run.
  repeat f_equal; lra.
Qed.

(** ** Evaluating the interpreter on an arc command *)

(** Evaluate a closed string term in place. *)
Ltac eval_str t := let v := eval vm_compute in t in change t with v.

Ltac eval_strings1 :=
  repeat match goal with
  | |- context [strip ?s] => eval_str (strip s)
  | |- context [lstrip ?s] => eval_str (lstrip s)
  | |- context [split1 ?s] => eval_str (split1 s)
  | |- context [str_in ?a ?b] => eval_str (str_in a b)
  | |- context [String.eqb ?a ?b] => eval_str (String.eqb a b)
  | |- context [Helpers.token ?s] => eval_str (Helpers.token s)
  | |- context [Py.int ?s] => eval_str (Py.int s)
  | |- context [str_first ?s] => eval_str (str_first s)
  | |- context [last_isdigit ?s] => eval_str (last_isdigit s)
  | |- context [str_tail ?s] => eval_str (str_tail s)
  end.

Ltac eval_strings := repeat (progress (eval_strings1; cbv beta iota)).

Lemma float_5 : Py.float "5" = Value 5.
Proof. reflexivity. Qed.

Lemma float_0 : Py.float "0" = Value 0.
Proof. reflexivity. Qed.

Lemma float_10 : Py.float "10" = Value 10.
Proof. reflexivity. Qed.

Lemma point_radii :
  Helpers.point "5 5 0 1 1 10 0 " = Value (5, 5, "0 1 1 10 0 ").
Proof.
  unfold Helpers.point. eval_strings.
  rewrite float_5. reflexivity.
Qed.

Lemma point_end : Helpers.point "10 0" = Value (10, 0, "").
Proof.
  unfold Helpers.point. eval_strings.
  rewrite float_10, float_0. reflexivity.
Qed.

(** Evaluate [extend_bounding_box] on numerals. *)
Ltac eval_box :=
  unfold extend_bounding_box, num_point;
  repeat (progress
    (cbn [map fst snd isinf fadd fsub fneg py_min py_max vlt vsub as_float
          flt mbind result_bind];
     decide_R)).

(** A flag that is a digit is read at once, whatever follows. *)
Lemma scan_flag_digit fuel c rest :
  isdigit c = true ->
  scan_flag fuel (String c rest) = Value (String c EmptyString, strip rest).
Proof.
  intros H. unfold scan_flag. cbn [str_first str_tail mbind result_bind].
  destruct fuel; cbn [scan_flag_loop last_isdigit mbind result_bind];
    rewrite H; reflexivity.
Qed.

Lemma radians_0 : radians 0 = 0.
Proof. unfold radians. lra. Qed.

(** The [A] command of [M 0 0 A 5 5 0 1 1 10 0], entered with the pen at
    the origin and the box of the [M] command. *)
Lemma arc_command_semicircle fuel :
  arc_command Py.float Py.int Helpers.point fuel
    (PathState "A" "5 5 0 1 1 10 0 " (Fin 0, Fin 0, Fin 0, Fin 0) 0 0)
  = Value (PathState "A" "" (Fin 0, Fin (-5), Fin 10, Fin 10) 10 0).
Proof.
  unfold arc_command.
  rewrite point_radii. run. eval_strings. cbn [unpack2]. run.
  rewrite float_0. run.
  rewrite scan_flag_digit by reflexivity. run. eval_strings.
  rewrite scan_flag_digit by reflexivity. run. eval_strings.
  unfold flag_value. eval_strings. run. cbn [Z.eqb negb]. run.
  rewrite point_end. run.
  rewrite radians_0, arc_semicircle. run.
  eval_box. repeat f_equal; lra.
Qed.

Lemma point_move :
  Helpers.point "0 0 A 5 5 0 1 1 10 0 " = Value (0, 0, "A 5 5 0 1 1 10 0 ").
Proof.
  unfold Helpers.point. eval_strings.
  rewrite float_0. reflexivity.
Qed.

Lemma step_move fuel :
  path_step Py.float Py.int Helpers.PATH_LETTERS Helpers.point fuel
    (PathState "M" "M 0 0 A 5 5 0 1 1 10 0"
                     EMPTY_BOUNDING_BOX 0 0)
  = Value (PathState "M" "A 5 5 0 1 1 10 0"
             (Fin 0, Fin 0, Fin 0, Fin 0) 0 0).
Proof.
  unfold path_step. eval_strings. cbn [first_item unpack2]. run.
  eval_strings. cbn [unpack2]. run.
  unfold dispatch_command. cbn [letter]. eval_strings.
  unfold line_command. rewrite point_move. run. eval_strings.
  unfold EMPTY_BOUNDING_BOX. eval_box. eval_strings.
  repeat f_equal; lra.
Qed.

Lemma step_arc fuel :
  path_step Py.float Py.int Helpers.PATH_LETTERS Helpers.point fuel
    (PathState "M" "A 5 5 0 1 1 10 0"
                     (Fin 0, Fin 0, Fin 0, Fin 0) 0 0)
  = Value (PathState "A" "" (Fin 0, Fin (-5), Fin 10, Fin 10) 10 0).
Proof.
  unfold path_step. eval_strings. cbn [first_item unpack2]. run.
  eval_strings. cbn [unpack2]. run.
  unfold dispatch_command. cbn [letter]. eval_strings.
  rewrite arc_command_semicircle. run. eval_strings. reflexivity.
Qed.

(** The path [M 0 0 A 5 5 0 1 1 10 0]. *)
Lemma path_semicircle k :
  path_box (S (S k)) "M 0 0 A 5 5 0 1 1 10 0"
  = Value (Fin 0, Fin (-5), Fin 10, Fin 10).
Proof.
  unfold path_box, bounding_box_path, str_attr, get_default. cbn [dict].
  rewrite lookup_singleton_eq. run.
  eval_str (Helpers.normalize (space_out_letters Helpers.PATH_LETTERS
                                 "M 0 0 A 5 5 0 1 1 10 0")).
  cbn [path_loop path_data]. rewrite step_move. run.
  cbn [path_loop path_data]. rewrite step_arc. run.
  destruct k; reflexivity.
Qed.

(** C3.  The claim asks that an [A] command extend the running box with
    the corners [(minX, minY)] and [(minX + width, minY + height)] of the
    solver's rectangle.  On [M 0 0 A 5 5 0 1 1 10 0] the solver returns
    [(0, -5, 10, 5)], whose corners are [(0, -5)] and [(10, 0)]; the
    interpreter extends with [(0, -5)] and [(10, 5)], reading the size as
    a point, and the box of the path is [(0, -5, 10, 10)] where the
    corners give [(0, -5, 10, 5)]. *)
Theorem arc_command_extends_with_size :
  bounding_box_elliptical_arc 0 0 5 5 (radians 0) true true 10 0
  = Value (0, -5, 10, 5)
  /\ (forall fuel,
        arc_command Py.float Py.int Helpers.point fuel
          (PathState "A" "5 5 0 1 1 10 0 " (Fin 0, Fin 0, Fin 0, Fin 0) 0 0)
        = Value (PathState "A" "" (Fin 0, Fin (-5), Fin 10, Fin 10) 10 0))
  /\ extend_bounding_box (Fin 0, Fin 0, Fin 0, Fin 0)
       (map num_point [(0, -5); (10, 5)])
     = Value (Fin 0, Fin (-5), Fin 10, Fin 10)
  /\ extend_bounding_box (Fin 0, Fin 0, Fin 0, Fin 0)
       (map num_point [(0, -5); (0 + 10, -5 + 5)])
     = Value (Fin 0, Fin (-5), Fin 10, Fin 5)
  /\ path_box 2 "M 0 0 A 5 5 0 1 1 10 0"
     = Value (Fin 0, Fin (-5), Fin 10, Fin 10).
Proof.
  split; [rewrite radians_0; exact arc_semicircle |].
  split; [exact arc_command_semicircle |].
  split; [eval_box; repeat f_equal; lra |].
  split; [eval_box; repeat f_equal; lra |].
  exact (path_semicircle 0).
Qed.

(** C4 as stated: the box of the arc from [(0,0)] to [(10,0)] with
    [rx = ry = 5], rotation 0 and both flags set has height 10 and
    x-extent [[0,10]].  The box the solver returns has not. *)
Lemma arc_semicircle_height_not_10 :
  ~ exists minx miny width height : R,
      bounding_box_elliptical_arc 0 0 5 5 0 true true 10 0
      = Value (minx, miny, width, height)
      /\ height = 10 /\ minx = 0 /\ minx + width = 10.
Proof.
  intros (minx & miny & width & height & H & Hh & _).
  rewrite arc_semicircle in H. injection H as _ _ _ H. lra.
Qed.

(** C4, amended.  The box the solver returns for that arc has height
    exactly 5, from [y = -5] to [y = 0], and x-extent exactly [[0,10]]:
    [minX = 0] and [minX + width = 10]. *)
Theorem arc_semicircle_height_5 :
  exists minx miny width height : R,
    bounding_box_elliptical_arc 0 0 5 5 0 true true 10 0
    = Value (minx, miny, width, height)
    /\ height = 5 /\ miny = -5 /\ minx = 0 /\ minx + width = 10.
Proof.
  exists 0, (-5), 10, 5. split; [exact arc_semicircle |]. lra.
Qed.

(** ** The interpreter and the dispatcher, whatever the helpers are *)

Section Properties.

Variable py_float : string -> result R.
Variable py_int : string -> result Z.
Variable PATH_LETTERS : string.
Variable normalize : string -> string.
Variable point : string -> result (R * R * string).
Variable Tree : node -> result node.
Variable match_features : node -> bool.

(** C5.  The claim asks the polyline evaluator for the min/max rectangle
    of the parsed points, without an error.  The loop [while points:]
    starts from the empty list and never runs, so the evaluator hands no
    point to [extend_bounding_box] and ends in [ValueError] for every
    [points] attribute, present or not; a value that is not a [str] ends
    in [AttributeError]. *)
Theorem bounding_box_polyline_raises (fuel : nat) (n : node) :
  bounding_box_polyline normalize point fuel n
  = match get_default n "points" "" with
    | OStr _ => Raise ValueError
    | OBox _ => Raise AttributeError
    end.
Proof.
  unfold bounding_box_polyline, str_attr.
  destruct (get_default n "points" ""); [| reflexivity].
  cbn [mbind result_bind]. destruct fuel; reflexivity.
Qed.

Lemma horizontal_command_raises st : horizontal_command st = Raise TypeError.
Proof.
  destruct st as [l pd [[[minx miny] w] h] px py_].
  unfold horizontal_command.
  destruct (split1_app_space pd) as (a & b & ->).
  cbn [unpack2 mbind result_bind].
  destruct (String.eqb l "h"); reflexivity.
Qed.

Lemma vertical_command_raises st : vertical_command st = Raise TypeError.
Proof.
  destruct st as [l pd [[[minx miny] w] h] px py_].
  unfold vertical_command.
  destruct (split1_app_space pd) as (a & b & ->).
  cbn [unpack2 mbind result_bind].
  destruct (String.eqb l "v"); [reflexivity |].
  unfold extend_bounding_box.
  cbn [map fst snd py_min vlt mbind result_bind].
  destruct (flt (Fin px) minx); reflexivity.
Qed.

Lemma horizontal_vertical_raise_TypeError_aux (fuel : nat)
    (path_data : string) (bounding_box : bbox) (previous_x previous_y : R) :
  let run letter :=
    dispatch_command py_float py_int point fuel
      (PathState letter path_data bounding_box previous_x previous_y) in
  run "H" = Raise TypeError /\ run "h" = Raise TypeError
  /\ run "V" = Raise TypeError /\ run "v" = Raise TypeError.
Proof.
  cbv zeta. unfold dispatch_command. cbn [letter].
  repeat split;
    match goal with
    | |- context [str_in ?l "aA"] =>
        eval_str (str_in l "aA"); eval_str (str_in l "cC");
        eval_str (str_in l "hH"); cbv iota
    end;
    try apply horizontal_command_raises.
  all: eval_strings; apply vertical_command_raises.
Qed.

(** C6.  The claim asks that an [H]/[h] or [V]/[v] command extend the box
    with one point and move the pen, without a type error.  The operand
    stays the [str] that [split] returned: adding the pen to it, or
    comparing it with the floats of the box, raises [TypeError] for every
    operand, box and pen. *)
Theorem horizontal_vertical_raise_TypeError (fuel : nat)
    (path_data : string) (bounding_box : bbox) (previous_x previous_y : R) :
  let run letter :=
    dispatch_command py_float py_int point fuel
      (PathState letter path_data bounding_box previous_x previous_y) in
  run "H" = Raise TypeError /\ run "h" = Raise TypeError
  /\ run "V" = Raise TypeError /\ run "v" = Raise TypeError.
Proof. exact (horizontal_vertical_raise_TypeError_aux fuel path_data
                bounding_box previous_x previous_y). Qed.




End Properties.

(** ** Instances *)

(** [Combine] on the box [(1, 2, 3, 4)]. *)
Lemma combine_bounding_box_idempotent_witness :
  well_formed (Fin 1, Fin 2, Fin 3, Fin 4)
  /\ combine_bounding_box (Fin 1, Fin 2, Fin 3, Fin 4)
       (Some (Fin 1, Fin 2, Fin 3, Fin 4))
     = Value (Fin 1, Fin 2, Fin 3, Fin 4)
  /\ invalid_box EMPTY_BOUNDING_BOX
  /\ combine_bounding_box (Fin 1, Fin 2, Fin 3, Fin 4)
       (Some EMPTY_BOUNDING_BOX)
     = Value (Fin 1, Fin 2, Fin 3, Fin 4).
Proof.
  assert (Hwf : well_formed (Fin 1, Fin 2, Fin 3, Fin 4)) by (simpl; lra).
  assert (Hinv : invalid_box EMPTY_BOUNDING_BOX) by exact I.
  split; [exact Hwf |].
  split; [apply (proj1 combine_bounding_box_idempotent); exact Hwf |].
  split; [exact Hinv |].
  apply (proj1 (proj2 combine_bounding_box_idempotent)). exact Hinv.
Defined.

(** The radius correction for the chord from [(0,0)] to [(6,8)] and the
    radii [(1,1)]. *)
Lemma radius_correction_never_falls_back_witness :
  0 < 1 /\ 0 < 1
  /\ arc_radius_correction 0 0 1 1 6 8 3 4
     = Value (Radii (1 / 1 * sqrt (4 ^ 2 + 3 ^ 2 / (1 / 1) ^ 2))
                (sqrt (4 ^ 2 + 3 ^ 2 / (1 / 1) ^ 2))).
Proof.
  assert (H1 : 0 < 1) by lra.
  split; [exact H1 |]. split; [exact H1 |].
  apply (radius_correction_never_falls_back 0 0 1 1 6 8 3 4 H1 H1).
Defined.

(** The flag scan on [ab], which has no digit. *)
Lemma flag_scan_terminates_witness :
  has_digit "ab" = false
  /\ (String.length "ab" <= 2)%nat
  /\ scan_flag 2 "ab" = Raise IndexError
  /\ scan_flag 2 "ab" <> OutOfFuel.
Proof.
  assert (Hlen : (String.length "ab" <= 2)%nat) by (simpl; lia).
  split; [reflexivity |]. split; [exact Hlen |].
  split.
  - apply (proj2 flag_scan_terminates "ab" 2%nat); [reflexivity | exact Hlen].
  - apply (proj1 flag_scan_terminates "ab" 2%nat). exact Hlen.
Defined.

Lemma dispatch_text_node :
  dispatch 1 text_node
  = Value (setitem text_node "bounding_box" (OBox (Fin 0, Fin 0, Fin 1, Fin 1)),
           Some (OBox (Fin 0, Fin 0, Fin 1, Fin 1))).
Proof.
  unfold dispatch, text_node. cbn [calculate_bounding_box].
  unfold bounding_box_text, get, setitem. cbn [dict tag].
  rewrite lookup_singleton_ne by discriminate.
  change (BOUNDING_BOX_METHODS !! "text") with (Some m_text).
  cbn [call_method]. unfold bounding_box_text, get. cbn [dict].
  rewrite lookup_singleton_eq. cbn [mbind result_bind as_box].
  unfold is_non_empty_bounding_box, is_valid_bounding_box.
  cbn [fadd isinf negb andb feq]. decide_R. cbn [orb negb dict].
  rewrite lookup_insert_eq. reflexivity.
Defined.



(** ** Sizes are non-negative outside the zero-radius arc *)

Lemma py_min_fin (xs : list R) : forall a : R,
  exists m, py_min (VNum (Fin a)) (map (fun x => VNum (Fin x)) xs)
            = Value (VNum (Fin m)) /\ m <= a.
Proof.
  induction xs as [| x xs IH]; intros a; cbn [map py_min].
  - exists a. split; [reflexivity | lra].
  - cbn [vlt flt mbind result_bind]. unfold Rltb.
    destruct (Rlt_dec x a) as [Hlt | Hge].
    + destruct (IH x) as (m & -> & Hm). exists m. split; [reflexivity | lra].
    + destruct (IH a) as (m & -> & Hm). exists m. split; [reflexivity | lra].
Qed.

Lemma py_max_fin (xs : list R) : forall a : R,
  exists m, py_max (VNum (Fin a)) (map (fun x => VNum (Fin x)) xs)
            = Value (VNum (Fin m)) /\ a <= m.
Proof.
  induction xs as [| x xs IH]; intros a; cbn [map py_max].
  - exists a. split; [reflexivity | lra].
  - cbn [vlt flt mbind result_bind]. unfold Rltb.
    destruct (Rlt_dec a x) as [Hlt | Hge].
    + destruct (IH x) as (m & -> & Hm). exists m. split; [reflexivity | lra].
    + destruct (IH a) as (m & -> & Hm). exists m. split; [reflexivity | lra].
Qed.

(** Extending the empty box or a finite box by finite points gives a
    finite box. *)
Lemma extend_bounding_box_finite (b : bbox) (p : R * R) (ps : list (R * R)) :
  running_box b ->
  exists b', extend_bounding_box b (map num_point (p :: ps)) = Value b'
             /\ finite_box b'.
Proof.
  intros Hb. unfold extend_bounding_box.
  destruct b as [[[minx miny] width] height].
  cbn [map]. rewrite !map_map. cbn [num_point fst snd map].
  destruct p as [x y]. cbn [fst snd].
  assert (Hax : forall lo size c cs,
            lo = PInf \/ (exists l s, lo = Fin l /\ size = Fin s /\ 0 <= s) ->
            exists l h,
              py_min (VNum lo)
                (VNum (Fin c) :: map (fun q => VNum (Fin q)) cs)
              = Value (VNum (Fin l))
              /\ py_max (VNum (if isinf lo then NInf else fadd lo size))
                   (VNum (Fin c) :: map (fun q => VNum (Fin q)) cs)
                 = Value (VNum (Fin h))
              /\ l <= h).
  { intros lo size c cs [-> | (l & s & -> & -> & Hs)];
      cbn [py_min py_max vlt flt isinf fadd mbind result_bind].
    - destruct (py_min_fin cs c) as (m & -> & Hm).
      destruct (py_max_fin cs c) as (M & -> & HM).
      exists m, M. repeat split; lra.
    - unfold Rltb.
      destruct (Rlt_dec c l), (Rlt_dec (l + s) c);
        match goal with
        | |- context [py_min (VNum (Fin ?a)) _] =>
            destruct (py_min_fin cs a) as (m & -> & Hm)
        end;
        match goal with
        | |- context [py_max (VNum (Fin ?a)) _] =>
            destruct (py_max_fin cs a) as (M & -> & HM)
        end;
        exists m, M; repeat split; lra. }
  assert (Hx : minx = PInf
               \/ exists l s, minx = Fin l /\ width = Fin s /\ 0 <= s).
  { destruct Hb as [[= -> -> _ _] | (a & b & w & h & [= -> -> -> ->] & ? & ?)];
      [left; reflexivity | right; eauto]. }
  assert (Hy : miny = PInf
               \/ exists l s, miny = Fin l /\ height = Fin s /\ 0 <= s).
  { destruct Hb as [[= -> -> _ _] | (a & b & w & h & [= -> -> -> ->] & ? & ?)];
      [left; reflexivity | right; eauto]. }
  destruct (Hax minx width x (map fst ps) Hx) as (lx & hx & Hminx & Hmaxx & Hlx).
  destruct (Hax miny height y (map snd ps) Hy) as (ly & hy & Hminy & Hmaxy & Hly).
  rewrite !map_map in Hminx, Hmaxx, Hminy, Hmaxy.
  cbn [fst snd] in *.
  rewrite Hminx, Hminy, Hmaxx, Hmaxy.
  cbn [mbind result_bind vsub fsub fneg fadd as_float].
  eexists. split; [reflexivity |].
  exists lx, ly, (hx + - lx), (hy + - ly). repeat split; lra.
Qed.

(** Invert a chain of binds that returned. *)
Ltac bind_inv H :=
  repeat match type of H with
  | mbind _ ?r = Value _ =>
      let E := fresh "E" in
      destruct r as [? | ? |] eqn:E; cbn [mbind result_bind] in H;
      [| discriminate H ..]
  | (let '(_, _) := ?p in _) = Value _ =>
      progress (destruct p; cbv beta iota in H)
  | (if ?b then _ else _) = Value _ => destruct b
  end.

(** Use [extend_bounding_box_finite] on a call that returned. *)
Ltac extend_inv :=
  match goal with
  | E : extend_bounding_box ?b (map num_point (?p :: ?ps)) = Value ?b0 |- _ =>
      let Hb := fresh "Hb" in
      let b' := fresh "b'" in
      let Heq := fresh "Heq" in
      let Hfin := fresh "Hfin" in
      assert (Hb : running_box b) by assumption;
      destruct (extend_bounding_box_finite b p ps Hb) as (b' & Heq & Hfin);
      rewrite Heq in E; injection E as <-;
      right; exact Hfin
  end.

Section PathInvariant.

Variable py_float : string -> result R.
Variable py_int : string -> result Z.
Variable PATH_LETTERS : string.
Variable normalize : string -> string.
Variable point : string -> result (R * R * string).

(** Every command that returns leaves a running box; the branches that
    extend the box leave a finite one. *)
Lemma dispatch_command_running fuel st st' :
  running_box (bounding_box st) ->
  dispatch_command py_float py_int point fuel st = Value st' ->
  running_box (bounding_box st').
Proof.
  intros Hrun H. unfold dispatch_command in H.
  destruct st as [l pd bb px py_]. cbn [letter bounding_box] in *.
  destruct (str_in l "aA").
  { unfold arc_command in H. cbv zeta in H. bind_inv H.
    all: injection H as <-; cbn [bounding_box]; extend_inv. }
  destruct (str_in l "cC").
  { unfold curve_command in H. cbv zeta in H. bind_inv H.
    all: injection H as <-; cbn [bounding_box]; extend_inv. }
  destruct (str_in l "hH").
  { rewrite horizontal_command_raises in H. discriminate. }
  destruct (str_in l "lLmMtT").
  { unfold line_command in H. cbv zeta in H. bind_inv H.
    all: injection H as <-; cbn [bounding_box]; extend_inv. }
  destruct (str_in l "qQsS").
  { unfold quadratic_command in H. cbv zeta in H. bind_inv H.
    all: injection H as <-; cbn [bounding_box]; extend_inv. }
  destruct (str_in l "vV").
  { rewrite vertical_command_raises in H. discriminate. }
  injection H as <-. exact Hrun.
Qed.

Lemma path_step_running fuel st st' :
  running_box (bounding_box st) ->
  path_step py_float py_int PATH_LETTERS point fuel st = Value st' ->
  running_box (bounding_box st').
Proof.
  intros Hrun H. unfold path_step in H.
  destruct st as [l pd bb px py_]. cbn [bounding_box] in Hrun.
  bind_inv H.
  all: match goal with
       | E : dispatch_command _ _ _ _ _ = Value ?s |- _ =>
           apply dispatch_command_running in E; [| exact Hrun];
           destruct s; injection H as <-; exact E
       end.
Qed.

Lemma path_loop_running n : forall fuel st b,
  running_box (bounding_box st) ->
  path_loop py_float py_int PATH_LETTERS point n fuel st = Value b ->
  running_box b.
Proof.
  induction n as [| n IH]; intros fuel st b Hrun H; cbn [path_loop] in H;
    destruct (path_data st) eqn:Hpd; try discriminate;
    try (injection H as <-; exact Hrun).
  bind_inv H. eapply IH; [| exact H].
  eapply path_step_running; [exact Hrun | exact E].
Qed.

(** The box of a path is the empty box or a finite box with a
    non-negative size; when it is valid it is well formed. *)
Lemma bounding_box_path_well_formed fuel n b :
  bounding_box_path py_float py_int PATH_LETTERS normalize point fuel n
  = Value b ->
  running_box b
  /\ (is_valid_bounding_box (Some b) = true -> well_formed b).
Proof.
  intros H. unfold bounding_box_path in H. bind_inv H.
  apply path_loop_running in H; [| left; reflexivity].
  split; [exact H |].
  destruct H as [-> | (x & y & w & h & -> & Hw & Hh)]; [discriminate |].
  intros _. simpl. auto.
Qed.

(** The boxes of [rect], [circle], [ellipse] and [line] are well formed. *)
Lemma primitive_boxes_well_formed n b :
  bounding_box_rect py_float n = Value b
  \/ bounding_box_circle py_float n = Value b
  \/ bounding_box_ellipse py_float n = Value b
  \/ bounding_box_line py_float n = Value b ->
  well_formed b.
Proof.
  unfold bounding_box_rect, bounding_box_circle, bounding_box_ellipse,
    bounding_box_line.
  intros [H | [H | [H | H]]]; bind_inv H; injection H as <-;
    cbn [box_of well_formed finite nonneg];
    unfold max2, min2, Rgtb; case_Rltb; repeat split; auto; lra.
Qed.

End PathInvariant.

(** ** Further instances *)

Section ArcCommand.

Variable py_float : string -> result R.
Variable py_int : string -> result Z.
Variable point : string -> result (R * R * string).

(** Whatever the helpers, an [A] command that returns has extended the
    running box with the first two and the last two components of the
    solver's tuple, as two points. *)
Lemma arc_command_points fuel st st' :
  arc_command py_float py_int point fuel st = Value st' ->
  exists rx ry rotation large sweep x y b0 b1 b2 b3,
    bounding_box_elliptical_arc (previous_x st) (previous_y st)
      rx ry rotation large sweep x y = Value (b0, b1, b2, b3)
    /\ extend_bounding_box (bounding_box st)
         (map num_point [(b0, b1); (b2, b3)])
       = Value (bounding_box st')
    /\ previous_x st' = x /\ previous_y st' = y.
Proof.
  intros H. destruct st as [l pd bb px py_].
  unfold arc_command in H. cbv zeta in H. bind_inv H.
  injection H as <-. cbn [previous_x previous_y bounding_box].
  eauto 15.
Qed.

End ArcCommand.

(** The path [M 0 0 H 10] ends in [TypeError]. *)
Lemma path_horizontal_raises :
  path_box 2 "M 0 0 H 10" = Raise TypeError.
Proof.
  unfold path_box, bounding_box_path, str_attr, get_default. cbn [dict].
  rewrite lookup_singleton_eq. run.
  eval_str (Helpers.normalize (space_out_letters Helpers.PATH_LETTERS
                                 "M 0 0 H 10")).
  cbn [path_loop path_data].
  assert (Hmove :
    path_step Py.float Py.int Helpers.PATH_LETTERS Helpers.point 2
      (PathState "M" "M 0 0 H 10" EMPTY_BOUNDING_BOX 0 0)
    = Value (PathState "M" "H 10" (Fin 0, Fin 0, Fin 0, Fin 0) 0 0)).
  { unfold path_step. eval_strings. cbn [first_item unpack2]. run.
    eval_strings. cbn [unpack2]. run.
    unfold dispatch_command. cbn [letter]. eval_strings.
    unfold line_command, Helpers.point. eval_strings.
    rewrite float_0. run.
    unfold EMPTY_BOUNDING_BOX. eval_box. eval_strings.
    repeat f_equal; lra. }
  rewrite Hmove. run. cbn [path_loop path_data].
  unfold path_step. eval_strings. cbn [first_item unpack2]. run.
  eval_strings. cbn [unpack2]. run.
  destruct (horizontal_vertical_raise_TypeError_aux Py.float Py.int
              Helpers.point 2 "10 " (Fin 0, Fin 0, Fin 0, Fin 0) 0 0)
    as [-> _].
  reflexivity.
Qed.

(** A [rect] of width 0: the box [(0, 0, 0, 40)] is returned to no one
    and nothing is cached, so the node is as it was. *)
Lemma flat_rect_not_cached : dispatch 1 flat_rect = Value (flat_rect, None).
Proof.
  unfold dispatch, flat_rect. cbn [calculate_bounding_box].
  unfold get. cbn [dict tag].
  match goal with
  | |- context [?m !! "bounding_box"] =>
      let v := eval vm_compute in (m !! "bounding_box") in
      change (m !! "bounding_box") with v
  end.
  change (BOUNDING_BOX_METHODS !! "rect") with (Some m_rect).
  cbn [call_method]. unfold bounding_box_rect, float_attr, get_default.
  cbn [dict].
  repeat match goal with
  | |- context [?m !! ?k] =>
      let v := eval vm_compute in (m !! k) in change (m !! k) with v
  end.
  cbv beta iota.
  change (Py.float "40") with (Value 40 : result R).
  rewrite float_0. run. cbn [box_of as_box]. run.
  unfold is_non_empty_bounding_box, is_valid_bounding_box.
  cbn [fadd isinf negb andb feq]. unfold max2, Rgtb. decide_R.
  cbn [orb negb]. reflexivity.
Qed.

(** * Further properties of the module *)

(** ** [extend_bounding_box] as a min/max rectangle *)

Lemma min_list_le a xs : min_list a xs <= a.
Proof.
  unfold min_list. revert a. induction xs as [| x xs IH]; intros a; simpl.
  - lra.
  - etransitivity; [apply IH | apply Rmin_l].
Qed.

Lemma max_list_ge a xs : a <= max_list a xs.
Proof.
  unfold max_list. revert a. induction xs as [| x xs IH]; intros a; simpl.
  - lra.
  - etransitivity; [apply Rmax_l | apply IH].
Qed.

Lemma min_list_lower a xs x : In x xs -> min_list a xs <= x.
Proof.
  unfold min_list. revert a. induction xs as [| y xs IH]; intros a; simpl.
  - contradiction.
  - intros [-> | Hin]; [| apply IH, Hin].
    etransitivity; [apply (min_list_le (Rmin a x) xs) | apply Rmin_r].
Qed.

Lemma max_list_upper a xs x : In x xs -> x <= max_list a xs.
Proof.
  unfold max_list. revert a. induction xs as [| y xs IH]; intros a; simpl.
  - contradiction.
  - intros [-> | Hin]; [| apply IH, Hin].
    etransitivity; [apply Rmax_r | apply (max_list_ge (Rmax a x) xs)].
Qed.

Lemma min_list_attained a xs : min_list a xs = a \/ In (min_list a xs) xs.
Proof.
  unfold min_list. revert a. induction xs as [| x xs IH]; intros a; simpl.
  - left. reflexivity.
  - destruct (IH (Rmin a x)) as [-> | Hin]; [| right; right; exact Hin].
    unfold Rmin. destruct (Rle_dec a x); [left | right; left]; reflexivity.
Qed.

Lemma max_list_attained a xs : max_list a xs = a \/ In (max_list a xs) xs.
Proof.
  unfold max_list. revert a. induction xs as [| x xs IH]; intros a; simpl.
  - left. reflexivity.
  - destruct (IH (Rmax a x)) as [-> | Hin]; [| right; right; exact Hin].
    unfold Rmax. destruct (Rle_dec a x); [right; left | left]; reflexivity.
Qed.

(** [min] and [max] of a float and a list of floats, in closed form. *)
Lemma py_min_list (xs : list R) : forall a : R,
  py_min (VNum (Fin a)) (map (fun x => VNum (Fin x)) xs)
  = Value (VNum (Fin (min_list a xs))).
Proof.
  unfold min_list.
  induction xs as [| x xs IH]; intros a; cbn [map py_min fold_left].
  - reflexivity.
  - cbn [vlt flt mbind result_bind]. unfold Rltb, Rmin.
    destruct (Rlt_dec x a), (Rle_dec a x); try lra; apply IH.
Qed.

Lemma py_max_list (xs : list R) : forall a : R,
  py_max (VNum (Fin a)) (map (fun x => VNum (Fin x)) xs)
  = Value (VNum (Fin (max_list a xs))).
Proof.
  unfold max_list.
  induction xs as [| x xs IH]; intros a; cbn [map py_max fold_left].
  - reflexivity.
  - cbn [vlt flt mbind result_bind]. unfold Rltb, Rmax.
    destruct (Rlt_dec a x), (Rle_dec a x); try lra; try apply IH.
    replace x with a by lra. apply IH.
Qed.

(** [extend_bounding_box] from the empty box. *)
Lemma extend_empty_closed (p : R * R) (ps : list (R * R)) :
  extend_bounding_box EMPTY_BOUNDING_BOX (map num_point (p :: ps))
  = Value (Fin (min_list (fst p) (map fst ps)),
           Fin (min_list (snd p) (map snd ps)),
           Fin (max_list (fst p) (map fst ps) - min_list (fst p) (map fst ps)),
           Fin (max_list (snd p) (map snd ps) - min_list (snd p) (map snd ps))).
Proof.
  unfold extend_bounding_box, EMPTY_BOUNDING_BOX.
  cbn [map isinf]. rewrite !map_map. cbn [num_point fst snd].
  cbn [py_min py_max vlt flt mbind result_bind].
  rewrite <- (map_map fst (fun x => VNum (Fin x))).
  rewrite <- (map_map snd (fun x => VNum (Fin x))).
  rewrite !py_min_list, !py_max_list.
  reflexivity.
Qed.

(** [extend_bounding_box] from a finite box. *)
Lemma extend_finite_closed (x y w h : R) (p : R * R) (ps : list (R * R)) :
  extend_bounding_box (Fin x, Fin y, Fin w, Fin h) (map num_point (p :: ps))
  = Value (Fin (min_list x (map fst (p :: ps))),
           Fin (min_list y (map snd (p :: ps))),
           Fin (max_list (x + w) (map fst (p :: ps))
                - min_list x (map fst (p :: ps))),
           Fin (max_list (y + h) (map snd (p :: ps))
                - min_list y (map snd (p :: ps)))).
Proof.
  unfold extend_bounding_box.
  cbn [isinf fadd].
  change (map fst (map num_point (p :: ps)))
    with (map fst (map num_point (p :: ps))).
  rewrite !(map_map num_point).
  cbn [num_point fst snd].
  rewrite <- (map_map fst (fun x => VNum (Fin x))).
  rewrite <- (map_map snd (fun x => VNum (Fin x))).
  rewrite !py_min_list, !py_max_list.
  reflexivity.
Qed.

Lemma min_list_perm a xs b ys :
  Permutation (a :: xs) (b :: ys) -> min_list a xs = min_list b ys.
Proof.
  intros HP.
  assert (Hlow : forall c zs z, In z (c :: zs) -> min_list c zs <= z).
  { intros c zs z [<- | Hin]; [apply min_list_le | apply min_list_lower, Hin]. }
  assert (Hatt : forall c zs, In (min_list c zs) (c :: zs)).
  { intros c zs. destruct (min_list_attained c zs) as [-> | Hin];
      [left; reflexivity | right; exact Hin]. }
  apply Rle_antisym.
  - apply Hlow. apply (Permutation_in _ (Permutation_sym HP)), Hatt.
  - apply Hlow. apply (Permutation_in _ HP), Hatt.
Qed.

Lemma max_list_perm a xs b ys :
  Permutation (a :: xs) (b :: ys) -> max_list a xs = max_list b ys.
Proof.
  intros HP.
  assert (Hup : forall c zs z, In z (c :: zs) -> z <= max_list c zs).
  { intros c zs z [<- | Hin]; [apply max_list_ge | apply max_list_upper, Hin]. }
  assert (Hatt : forall c zs, In (max_list c zs) (c :: zs)).
  { intros c zs. destruct (max_list_attained c zs) as [-> | Hin];
      [left; reflexivity | right; exact Hin]. }
  apply Rle_antisym.
  - apply Hup. apply (Permutation_in _ HP), Hatt.
  - apply Hup. apply (Permutation_in _ (Permutation_sym HP)), Hatt.
Qed.

(** X1.  In exact arithmetic, extending the empty box by a non-empty
    list of points gives exactly their min/max rectangle: each side passes through one of the
    points and every point lies inside. *)
Theorem extend_empty_is_min_max_rectangle (p : R * R) (ps : list (R * R)) :
  exists lx ly hx hy : R,
    extend_bounding_box EMPTY_BOUNDING_BOX (map num_point (p :: ps))
    = Value (Fin lx, Fin ly, Fin (hx - lx), Fin (hy - ly))
    /\ In lx (map fst (p :: ps)) /\ In hx (map fst (p :: ps))
    /\ In ly (map snd (p :: ps)) /\ In hy (map snd (p :: ps))
    /\ forall q, In q (p :: ps) ->
         lx <= fst q <= hx /\ ly <= snd q <= hy.
Proof.
  exists (min_list (fst p) (map fst ps)), (min_list (snd p) (map snd ps)),
    (max_list (fst p) (map fst ps)), (max_list (snd p) (map snd ps)).
  split; [apply extend_empty_closed |].
  cbn [map].
  repeat split.
  - destruct (min_list_attained (fst p) (map fst ps)) as [-> | H];
      [left; reflexivity | right; exact H].
  - destruct (max_list_attained (fst p) (map fst ps)) as [-> | H];
      [left; reflexivity | right; exact H].
  - destruct (min_list_attained (snd p) (map snd ps)) as [-> | H];
      [left; reflexivity | right; exact H].
  - destruct (max_list_attained (snd p) (map snd ps)) as [-> | H];
      [left; reflexivity | right; exact H].
  - destruct H as [<- | H]; [apply min_list_le |].
    apply min_list_lower, in_map, H.
  - destruct H as [<- | H]; [apply max_list_ge |].
    apply max_list_upper, in_map, H.
  - destruct H as [<- | H]; [apply min_list_le |].
    apply min_list_lower, in_map, H.
  - destruct H as [<- | H]; [apply max_list_ge |].
    apply max_list_upper, in_map, H.
Qed.

(** X2.  In exact arithmetic, extending a finite box with a non-negative
    size never shrinks
    it and covers every new point: the result is a finite box that
    contains the points and whatever the old box contained. *)
Theorem extend_covers (b : bbox) (p : R * R) (ps : list (R * R)) :
  finite_box b ->
  exists b' : bbox,
    extend_bounding_box b (map num_point (p :: ps)) = Value b'
    /\ finite_box b'
    /\ (forall q, In q (p :: ps) -> inside b' q)
    /\ (forall q, inside b q -> inside b' q).
Proof.
  intros (x & y & w & h & -> & Hw & Hh).
  rewrite extend_finite_closed.
  set (xs := map fst (p :: ps)). set (ys := map snd (p :: ps)).
  pose proof (min_list_le x xs). pose proof (max_list_ge (x + w) xs).
  pose proof (min_list_le y ys). pose proof (max_list_ge (y + h) ys).
  eexists. split; [reflexivity |]. split; [| split].
  - eexists _, _, _, _. split; [reflexivity |]. split; lra.
  - intros q Hq. eexists _, _, _, _. split; [reflexivity |].
    pose proof (min_list_lower x xs (fst q) (in_map fst _ _ Hq)).
    pose proof (max_list_upper (x + w) xs (fst q) (in_map fst _ _ Hq)).
    pose proof (min_list_lower y ys (snd q) (in_map snd _ _ Hq)).
    pose proof (max_list_upper (y + h) ys (snd q) (in_map snd _ _ Hq)).
    split; lra.
  - intros q (x0 & y0 & w0 & h0 & [= <- <- <- <-] & Hqx & Hqy).
    eexists _, _, _, _. split; [reflexivity |]. split; lra.
Qed.

(** X3.  Extending a finite box by points that already lie inside it
    leaves the box as it is. *)
Theorem extend_inside_is_identity (b : bbox) (p : R * R) (ps : list (R * R)) :
  finite_box b ->
  (forall q, In q (p :: ps) -> inside b q) ->
  extend_bounding_box b (map num_point (p :: ps)) = Value b.
Proof.
  intros (x & y & w & h & -> & Hw & Hh) Hin.
  rewrite extend_finite_closed.
  set (xs := map fst (p :: ps)). set (ys := map snd (p :: ps)).
  assert (Hq : forall q, In q (p :: ps) ->
            x <= fst q <= x + w /\ y <= snd q <= y + h).
  { intros q Hq. destruct (Hin q Hq) as (? & ? & ? & ? & [= <- <- <- <-] & ?).
    assumption. }
  assert (Hxs : forall c, In c xs -> x <= c <= x + w).
  { intros c Hc. apply in_map_iff in Hc as (q & <- & Hc). apply Hq, Hc. }
  assert (Hys : forall c, In c ys -> y <= c <= y + h).
  { intros c Hc. apply in_map_iff in Hc as (q & <- & Hc). apply Hq, Hc. }
  assert (min_list x xs = x) as ->.
  { destruct (min_list_attained x xs) as [E | E]; [exact E |].
    apply Rle_antisym; [apply min_list_le | apply Hxs, E]. }
  assert (min_list y ys = y) as ->.
  { destruct (min_list_attained y ys) as [E | E]; [exact E |].
    apply Rle_antisym; [apply min_list_le | apply Hys, E]. }
  assert (max_list (x + w) xs = x + w) as ->.
  { destruct (max_list_attained (x + w) xs) as [E | E]; [exact E |].
    apply Rle_antisym; [apply Hxs, E | apply max_list_ge]. }
  assert (max_list (y + h) ys = y + h) as ->.
  { destruct (max_list_attained (y + h) ys) as [E | E]; [exact E |].
    apply Rle_antisym; [apply Hys, E | apply max_list_ge]. }
  repeat f_equal; lra.
Qed.

(** X4.  The order of the points does not matter: from the empty box or
    a finite box, two lists with the same points give the same result. *)
Theorem extend_order_independent (b : bbox) (p : R * R)
    (ps qs : list (R * R)) :
  running_box b ->
  Permutation (p :: ps) qs ->
  extend_bounding_box b (map num_point (p :: ps))
  = extend_bounding_box b (map num_point qs).
Proof.
  intros Hb HP.
  destruct qs as [| q qs'].
  { apply Permutation_length in HP. discriminate. }
  pose proof (Permutation_map fst HP) as Hx.
  pose proof (Permutation_map snd HP) as Hy.
  destruct Hb as [-> | (x & y & w & h & -> & _ & _)].
  - rewrite !extend_empty_closed. cbn [map] in Hx, Hy.
    rewrite (min_list_perm _ _ _ _ Hx), (max_list_perm _ _ _ _ Hx),
      (min_list_perm _ _ _ _ Hy), (max_list_perm _ _ _ _ Hy).
    reflexivity.
  - rewrite !extend_finite_closed.
    rewrite (min_list_perm x _ x _ (perm_skip x Hx)),
      (max_list_perm (x + w) _ (x + w) _ (perm_skip (x + w) Hx)),
      (min_list_perm y _ y _ (perm_skip y Hy)),
      (max_list_perm (y + h) _ (y + h) _ (perm_skip (y + h) Hy)).
    reflexivity.
Qed.

(** X5.  Extending in two steps is extending once by all the points. *)
Theorem extend_twice (b : bbox) (p q : R * R) (ps qs : list (R * R)) :
  running_box b ->
  (b' ← extend_bounding_box b (map num_point (p :: ps));
   extend_bounding_box b' (map num_point (q :: qs)))
  = extend_bounding_box b (map num_point ((p :: ps) ++ q :: qs)%list).
Proof.
  intros [-> | (x & y & w & h & -> & _ & _)].
  - rewrite extend_empty_closed. cbn [mbind result_bind].
    rewrite extend_finite_closed.
    change ((p :: ps) ++ q :: qs)%list with (p :: (ps ++ q :: qs)%list).
    rewrite extend_empty_closed.
    rewrite !map_app. unfold min_list, max_list. rewrite !fold_left_app.
    fold (min_list (fst p) (map fst ps)) (max_list (fst p) (map fst ps))
      (min_list (snd p) (map snd ps)) (max_list (snd p) (map snd ps)).
    match goal with
    | |- context [fold_left Rmax _ (?m + (?M - ?m))] =>
        replace (m + (M - m)) with M by lra
    end.
    match goal with
    | |- context [fold_left Rmax _ (?m + (?M - ?m))] =>
        replace (m + (M - m)) with M by lra
    end.
    reflexivity.
  - rewrite extend_finite_closed. cbn [mbind result_bind].
    rewrite extend_finite_closed.
    change ((p :: ps) ++ q :: qs)%list with (p :: (ps ++ q :: qs)%list).
    rewrite extend_finite_closed.
    change (p :: (ps ++ q :: qs)%list) with ((p :: ps) ++ q :: qs)%list.
    rewrite !map_app. unfold min_list, max_list. rewrite !fold_left_app.
    fold (min_list x (map fst (p :: ps))) (max_list (x + w) (map fst (p :: ps)))
      (min_list y (map snd (p :: ps))) (max_list (y + h) (map snd (p :: ps))).
    match goal with
    | |- context [fold_left Rmax _ (?m + (?M - ?m))] =>
        replace (m + (M - m)) with M by lra
    end.
    match goal with
    | |- context [fold_left Rmax _ (?m + (?M - ?m))] =>
        replace (m + (M - m)) with M by lra
    end.
    reflexivity.
Qed.

(** ** [combine_bounding_box] as a union *)

(** Reduce an equation between returned boxes to equations on reals. *)
Ltac box_eq :=
  apply (f_equal Value);
  repeat match goal with |- (_, _) = (_, _) => f_equal end;
  apply (f_equal Fin).

Ltac case_Rmin_Rmax :=
  unfold Rmin, Rmax;
  repeat match goal with
  | |- context [Rle_dec ?a ?b] =>
      lazymatch a with context [Rle_dec _ _] => fail | _ => idtac end;
      lazymatch b with context [Rle_dec _ _] => fail | _ => idtac end;
      destruct (Rle_dec a b)
  end.

Lemma union_size_nonneg (x w x' w' : R) :
  0 <= w -> 0 <= Rmax (x + w) (x' + w') - Rmin x x'.
Proof. intros Hw. case_Rmin_Rmax; lra. Qed.

(** [combine_bounding_box] of two finite boxes. *)
Lemma combine_closed (x y w h x' y' w' h' : R) :
  0 <= w' -> 0 <= h' ->
  combine_bounding_box (Fin x, Fin y, Fin w, Fin h)
    (Some (Fin x', Fin y', Fin w', Fin h'))
  = Value (Fin (Rmin x x'), Fin (Rmin y y'),
           Fin (Rmax (x + w) (x' + w') - Rmin x x'),
           Fin (Rmax (y + h) (y' + h') - Rmin y y')).
Proof.
  intros Hw Hh. unfold combine_bounding_box.
  cbn [is_valid_bounding_box fadd isinf negb].
  change [(VNum (Fin x'), VNum (Fin y'));
          (VNum (Fin (x' + w')), VNum (Fin (y' + h')))]
    with (map num_point [(x', y'); (x' + w', y' + h')]).
  rewrite extend_finite_closed.
  unfold min_list, max_list. cbn [map fst snd fold_left].
  box_eq; case_Rmin_Rmax; lra.
Qed.

(** [combine_bounding_box] of the empty box and a finite box. *)
Lemma combine_empty_closed (x' y' w' h' : R) :
  0 <= w' -> 0 <= h' ->
  combine_bounding_box EMPTY_BOUNDING_BOX
    (Some (Fin x', Fin y', Fin w', Fin h'))
  = Value (Fin x', Fin y', Fin w', Fin h').
Proof.
  intros Hw Hh. unfold combine_bounding_box.
  cbn [is_valid_bounding_box fadd isinf negb].
  change [(VNum (Fin x'), VNum (Fin y'));
          (VNum (Fin (x' + w')), VNum (Fin (y' + h')))]
    with (map num_point [(x', y'); (x' + w', y' + h')]).
  rewrite extend_empty_closed.
  unfold min_list, max_list. cbn [map fst snd fold_left].
  box_eq; case_Rmin_Rmax; lra.
Qed.

(** X6.  In exact arithmetic, the empty box is a left identity of [Combine] on finite boxes:
    a group with one measurable child has the box of that child. *)
Theorem combine_empty_left (b : bbox) :
  finite_box b ->
  combine_bounding_box EMPTY_BOUNDING_BOX (Some b) = Value b.
Proof.
  intros (x & y & w & h & -> & Hw & Hh). apply combine_empty_closed; assumption.
Qed.

(** X7.  In exact arithmetic, [Combine] is commutative on finite boxes. *)
Theorem combine_commutative (a b : bbox) :
  finite_box a -> finite_box b ->
  combine_bounding_box a (Some b) = combine_bounding_box b (Some a).
Proof.
  intros (x & y & w & h & -> & Hw & Hh) (x' & y' & w' & h' & -> & Hw' & Hh').
  rewrite !combine_closed by assumption.
  rewrite (Rmin_comm x' x), (Rmin_comm y' y),
    (Rmax_comm (x' + w') (x + w)), (Rmax_comm (y' + h') (y + h)).
  reflexivity.
Qed.

(** X8.  [Combine] is associative on finite boxes: folding it over the
    children of a group does not depend on how the boxes are grouped. *)
Theorem combine_associative (a b c : bbox) :
  finite_box a -> finite_box b -> finite_box c ->
  (ab ← combine_bounding_box a (Some b); combine_bounding_box ab (Some c))
  = (bc ← combine_bounding_box b (Some c); combine_bounding_box a (Some bc)).
Proof.
  intros (x & y & w & h & -> & Hw & Hh) (x' & y' & w' & h' & -> & Hw' & Hh')
    (x'' & y'' & w'' & h'' & -> & Hw'' & Hh'').
  rewrite !combine_closed by assumption. cbn [mbind result_bind].
  rewrite !combine_closed
    by first [assumption | apply union_size_nonneg; assumption].
  repeat match goal with
  | |- context [?m + (?M - ?m)] => replace (m + (M - m)) with M by lra
  end.
  rewrite !Rmin_assoc, !Rmax_assoc. reflexivity.
Qed.

(** X9.  In exact arithmetic, the box [Combine] returns for two finite
    boxes contains every
    point of either box. *)
Theorem combine_covers (a b : bbox) :
  finite_box a -> finite_box b ->
  exists c : bbox,
    combine_bounding_box a (Some b) = Value c
    /\ finite_box c
    /\ forall q, inside a q \/ inside b q -> inside c q.
Proof.
  intros (x & y & w & h & -> & Hw & Hh) (x' & y' & w' & h' & -> & Hw' & Hh').
  rewrite combine_closed by assumption.
  eexists. split; [reflexivity |]. split.
  - eexists _, _, _, _. split; [reflexivity |].
    split; case_Rmin_Rmax; lra.
  - intros q [(? & ? & ? & ? & [= <- <- <- <-] & Hqx & Hqy)
             | (? & ? & ? & ? & [= <- <- <- <-] & Hqx & Hqy)];
      eexists _, _, _, _; (split; [reflexivity |]);
      revert Hqx Hqy; case_Rmin_Rmax; intros; lra.
Qed.

(** ** [angle] and the degenerate cases of the arc solver *)

Lemma py_fmod_range a b :
  0 <= a -> 0 < b -> exists r, py_fmod a b = Value r /\ 0 <= r < b.
Proof.
  intros Ha Hb. unfold py_fmod.
  rewrite (proj2 (Reqb_false b 0)) by lra.
  assert (Hq : 0 <= a / b).
  { unfold Rdiv. apply Rmult_le_pos; [exact Ha |].
    left. apply Rinv_0_lt_compat, Hb. }
  unfold Ztrunc. rewrite (proj2 (Rltb_false (a / b) 0)) by lra.
  eexists. split; [reflexivity |].
  destruct (base_Int_part (a / b)) as [Hlo Hhi].
  assert (Ea : a = b * (a / b)) by (field; lra).
  set (k := IZR (Int_part (a / b))) in *.
  split.
  - assert (b * k <= b * (a / b)) by (apply Rmult_le_compat_l; lra). lra.
  - assert (b * (a / b - 1) < b * k) by (apply Rmult_lt_compat_l; lra). lra.
Qed.

Lemma sqrt_sum_squares_bound bx by_ :
  bx <> 0 \/ by_ <> 0 ->
  0 < sqrt (bx * bx + by_ * by_)
  /\ -1 <= bx / sqrt (bx * bx + by_ * by_) <= 1.
Proof.
  intros Hnz.
  assert (Hpos : 0 < bx * bx + by_ * by_) by (destruct Hnz; nra).
  assert (Hn : 0 < sqrt (bx * bx + by_ * by_)) by (apply sqrt_lt_R0, Hpos).
  split; [exact Hn |].
  assert (Habs : Rabs bx <= sqrt (bx * bx + by_ * by_)).
  { rewrite <- sqrt_Rsqr_abs. apply sqrt_le_1_alt. unfold Rsqr. nra. }
  set (n := sqrt (bx * bx + by_ * by_)) in *.
  assert (Hb : - n <= bx <= n).
  { unfold Rabs in Habs. destruct (Rcase_abs bx); lra. }
  split; apply (Rmult_le_reg_r n); try exact Hn;
    replace (bx / n * n) with bx by (field; lra); lra.
Qed.

(** X10.  In exact arithmetic, [angle] returns for every vector but the
    null vector, and the
    angle lies in [[0, 2 pi)]; on the null vector the division by its
    length raises [ZeroDivisionError]. *)
Theorem angle_range :
  (forall bx by_ : R, bx <> 0 \/ by_ <> 0 ->
     exists a, angle bx by_ = Value a /\ 0 <= a < 2 * PI)
  /\ angle 0 0 = Raise ZeroDivisionError.
Proof.
  split.
  - intros bx by_ Hnz.
    destruct (sqrt_sum_squares_bound bx by_ Hnz) as [Hn Hq].
    rewrite (angle_eval bx by_ _ Hn eq_refl Hq).
    pose proof PI_RGT_0.
    pose proof (acos_bound (bx / sqrt (bx * bx + by_ * by_))).
    apply py_fmod_range; [| lra].
    destruct (Rgtb by_ 0); lra.
  - unfold angle. replace (0 * 0 + 0 * 0) with 0 by lra.
    rewrite py_sqrt_eval, sqrt_0 by lra. cbn [mbind result_bind].
    unfold py_div. rewrite Reqb_refl. reflexivity.
Qed.

Lemma py_div_zero a : py_div a 0 = Raise ZeroDivisionError.
Proof. unfold py_div. rewrite Reqb_refl. reflexivity. Qed.

(** X11.  In exact arithmetic, an arc whose two endpoints coincide, with both radii non-zero,
    makes the solver divide by zero: the first radicant has the
    denominator [rx^2 y1'^2 + ry^2 x1'^2 = 0]. *)
Theorem arc_coincident_endpoints_raise
    (x y rx ry phi : R) (large sweep : bool) :
  rx <> 0 -> ry <> 0 ->
  bounding_box_elliptical_arc x y rx ry phi large sweep x y
  = Raise ZeroDivisionError.
Proof.
  intros Hrx Hry. unfold bounding_box_elliptical_arc. cbv zeta.
  rewrite (proj2 (Reqb_false (Rabs rx) 0)) by (apply Rabs_no_R0, Hrx).
  rewrite (proj2 (Reqb_false (Rabs ry) 0)) by (apply Rabs_no_R0, Hry).
  cbn [orb].
  match goal with
  | |- context [py_div ?a ?d] =>
      replace d with 0 by (unfold Rdiv; ring); rewrite (py_div_zero a)
  end.
  reflexivity.
Qed.

(** X12.  For an arc with a zero radius, the two points the path
    interpreter takes from the solver's tuple extend the running box
    exactly as the two endpoints of the arc do: the box of a zero-radius
    arc is the rectangle spanned by its endpoints. *)
Theorem zero_radius_arc_extends_by_endpoints
    (b : bbox) (x1 y1 rx ry phi : R) (large sweep : bool) (x y : R) :
  rx = 0 \/ ry = 0 ->
  running_box b ->
  (arc_bounding_box ← bounding_box_elliptical_arc
                        x1 y1 rx ry phi large sweep x y;
   let '(b0, b1, b2, b3) := arc_bounding_box in
   extend_bounding_box b (map num_point [(b0, b1); (b2, b3)]))
  = extend_bounding_box b (map num_point [(x1, y1); (x, y)]).
Proof.
  intros Hr Hb. rewrite (arc_degenerate _ _ _ _ _ _ _ _ _ Hr).
  cbn [mbind result_bind].
  unfold min2, max2, Rgtb, Rltb.
  destruct Hb as [-> | (bx & by_ & w & h & -> & _ & _)].
  - rewrite !extend_empty_closed.
    unfold min_list, max_list. cbn [map fst snd fold_left].
    destruct (Rlt_dec x1 x), (Rlt_dec x x1), (Rlt_dec y1 y), (Rlt_dec y y1);
      box_eq; case_Rmin_Rmax; lra.
  - rewrite !extend_finite_closed.
    unfold min_list, max_list. cbn [map fst snd fold_left].
    destruct (Rlt_dec x1 x), (Rlt_dec x x1), (Rlt_dec y1 y), (Rlt_dec y y1);
      box_eq; case_Rmin_Rmax; lra.
Qed.

(** ** The path interpreter *)

Lemma split1_first s : first_item (split1 s) = Value (first_token s).
Proof.
  unfold first_token. destruct s as [| c s]; cbn [split1]; [reflexivity |].
  destruct (Ascii.eqb c " "); [reflexivity |].
  destruct (split1 s); reflexivity.
Qed.

Lemma space_out_letters_empty letters :
  space_out_letters letters EmptyString = EmptyString.
Proof. induction letters as [| c l IH]; [reflexivity | exact IH]. Qed.

Lemma scan_flag_loop_ends_in_digit fuel : forall flag path_data flag' rest,
  scan_flag_loop fuel flag path_data = Value (flag', rest) ->
  last_isdigit flag' = Value true.
Proof.
  induction fuel as [| fuel IH]; intros flag pd flag' rest H;
    cbn [scan_flag_loop] in H;
    destruct (last_isdigit flag) as [[|] | e |] eqn:Hd;
    cbn [mbind result_bind] in H; try discriminate;
    try (injection H as <- <-; exact Hd).
  destruct (str_first pd) as [c | e |]; cbn [mbind result_bind] in H;
    try discriminate.
  eapply IH, H.
Qed.

Section PathInterpreter.

Variable py_float : string -> result R.
Variable py_int : string -> result Z.
Variable PATH_LETTERS : string.
Variable normalize : string -> string.
Variable point : string -> result (R * R * string).

(** A turn of the loop that neither reads a letter nor enters a branch
    leaves the state as it is. *)
Lemma path_step_stuck fuel l pd bb px py_ :
  strip pd = pd ->
  str_in (first_token pd) PATH_LETTERS = false ->
  has_branch l = false ->
  path_step py_float py_int PATH_LETTERS point fuel (PathState l pd bb px py_)
  = Value (PathState l pd bb px py_).
Proof.
  intros Hstrip Htok Hbr. unfold path_step.
  rewrite Hstrip, split1_first. cbn [mbind result_bind]. rewrite Htok.
  cbn [mbind result_bind]. unfold dispatch_command. cbn [letter].
  unfold has_branch in Hbr.
  apply orb_false_elim in Hbr as [Hbr Hv].
  apply orb_false_elim in Hbr as [Hbr Hq].
  apply orb_false_elim in Hbr as [Hbr Hl].
  apply orb_false_elim in Hbr as [Hbr Hh].
  apply orb_false_elim in Hbr as [Ha Hc].
  rewrite Ha, Hc, Hh, Hl, Hq, Hv.
  cbn [mbind result_bind]. rewrite Hstrip. reflexivity.
Qed.

(** X13.  The loop of the path interpreter does not end when the current
    letter has no branch of its own (any letter of [PATH_LETTERS] other
    than [aAcChHlLmMtTqQsSvV]) and the next token is not a letter: the
    turn consumes nothing, so [while path_data:] runs for ever. *)
Theorem path_loop_diverges (n fuel : nat) (l pd : string) (bb : bbox)
    (px py_ : R) :
  pd <> EmptyString ->
  strip pd = pd ->
  str_in (first_token pd) PATH_LETTERS = false ->
  has_branch l = false ->
  path_loop py_float py_int PATH_LETTERS point n fuel
    (PathState l pd bb px py_) = OutOfFuel.
Proof.
  intros Hne Hstrip Htok Hbr.
  induction n as [| n IH]; cbn [path_loop path_data];
    destruct pd as [| c pd']; try contradiction; [reflexivity |].
  rewrite (path_step_stuck fuel l _ bb px py_ Hstrip Htok Hbr).
  cbn [mbind result_bind]. exact IH.
Qed.

(** X14.  A path without data, or without a [d] attribute, has the empty
    box, whatever the fuel, provided [normalize] maps the empty string to
    itself. *)
Theorem bounding_box_path_no_data (fuel : nat) (n : node) :
  normalize EmptyString = EmptyString ->
  get n "d" = None \/ get n "d" = Some (OStr EmptyString) ->
  bounding_box_path py_float py_int PATH_LETTERS normalize point fuel n
  = Value EMPTY_BOUNDING_BOX.
Proof.
  intros Hnorm Hd. unfold bounding_box_path, str_attr, get_default.
  unfold get in Hd. destruct Hd as [-> | ->]; cbn [mbind result_bind];
    rewrite space_out_letters_empty, Hnorm;
    destruct fuel; reflexivity.
Qed.

(** X15.  In exact arithmetic and with finite operands, whenever the
    path evaluator returns, its box is the empty box
    or a finite box with a non-negative width and height; a valid box of
    a path is well formed. *)
Theorem bounding_box_path_invariant (fuel : nat) (n : node) (b : bbox) :
  bounding_box_path py_float py_int PATH_LETTERS normalize point fuel n
  = Value b ->
  (b = EMPTY_BOUNDING_BOX \/ finite_box b)
  /\ (is_valid_bounding_box (Some b) = true -> well_formed b).
Proof. apply bounding_box_path_well_formed. Qed.

(** X16.  In exact arithmetic and for attributes that parse to finite
    numbers, among [rect], [circle], [ellipse] and [line], every box that
    is returned has finite corners and a non-negative width and height:
    negative sizes and radii are clamped to 0. *)
Theorem primitive_shapes_well_formed (n : node) (b : bbox) :
  (bounding_box_rect py_float n = Value b -> well_formed b)
  /\ (bounding_box_circle py_float n = Value b -> well_formed b)
  /\ (bounding_box_ellipse py_float n = Value b -> well_formed b)
  /\ (bounding_box_line py_float n = Value b -> well_formed b).
Proof.
  repeat split; intros H; apply (primitive_boxes_well_formed py_float n b);
    auto.
Qed.

End PathInterpreter.

(** X17.  The flag scanner reads a digit at once and alone, whatever
    follows it, so flags glued to each other or to the next number are
    told apart; and a flag it returns always ends with a digit. *)
Theorem scan_flag_reads_one_digit :
  (forall (fuel : nat) (c : ascii) (rest : string),
     isdigit c = true ->
     scan_flag fuel (String c rest) = Value (String c EmptyString, strip rest))
  /\ (forall (fuel : nat) (path_data flag rest : string),
        scan_flag fuel path_data = Value (flag, rest) ->
        last_isdigit flag = Value true).
Proof.
  split; [exact scan_flag_digit |].
  intros fuel pd flag rest H. unfold scan_flag in H.
  destruct (str_first pd) as [c | e |]; cbn [mbind result_bind] in H;
    try discriminate.
  eapply scan_flag_loop_ends_in_digit, H.
Qed.

(** ** Groups and the dispatcher *)

Lemma combine_running_covers (b0 bc : bbox) :
  running_box b0 -> finite_box bc ->
  exists b, combine_bounding_box b0 (Some bc) = Value b
            /\ finite_box b
            /\ forall q, inside b0 q \/ inside bc q -> inside b q.
Proof.
  intros [-> | (x & y & w & h & -> & Hw & Hh)]
    (x' & y' & w' & h' & -> & Hw' & Hh').
  - rewrite combine_empty_closed by assumption.
    eexists. split; [reflexivity |]. split.
    + eexists _, _, _, _. split; [reflexivity |]. split; assumption.
    + intros q [(? & ? & ? & ? & [=] & _) | Hq]; exact Hq.
  - rewrite combine_closed by assumption.
    eexists. split; [reflexivity |]. split.
    + eexists _, _, _, _. split; [reflexivity |].
      split; case_Rmin_Rmax; lra.
    + intros q [(? & ? & ? & ? & [= <- <- <- <-] & Hqx & Hqy)
               | (? & ? & ? & ? & [= <- <- <- <-] & Hqx & Hqy)];
        eexists _, _, _, _; (split; [reflexivity |]);
        revert Hqx Hqy; case_Rmin_Rmax; intros; lra.
Qed.

Lemma group_loop_covers calc (cs : list node) : forall b0 : bbox,
  running_box b0 ->
  Forall (measurable calc) cs ->
  exists cs' b,
    group_loop calc b0 cs = Value (cs', b)
    /\ running_box b
    /\ length cs' = length cs
    /\ (forall q, inside b0 q -> inside b q)
    /\ forall c c' bc, In c cs -> calc c = Value (c', Some (OBox bc)) ->
         forall q, inside bc q -> inside b q.
Proof.
  induction cs as [| c cs IH]; intros b0 Hb0 Hall; cbn [group_loop].
  - exists [], b0. repeat split; auto. intros c c' bc [].
  - apply Forall_cons_iff in Hall as [(c1 & r & Hc & Hr) Hall].
    rewrite Hc. cbn [mbind result_bind].
    destruct Hr as [-> | (bc & -> & Hbc)]; cbn [as_box mbind result_bind].
    + cbn [combine_bounding_box is_valid_bounding_box mbind result_bind].
      destruct (IH b0 Hb0 Hall) as (cs' & b & -> & Hb & Hlen & Hold & Hcov).
      cbn [mbind result_bind]. exists (c1 :: cs'), b.
      split; [reflexivity |]. split; [exact Hb |].
      split; [cbn [length]; congruence |]. split; [exact Hold |].
      intros c0 c0' bc0 [<- | Hin] Hc0; [congruence | eapply Hcov; eauto].
    + destruct (combine_running_covers b0 bc Hb0 Hbc) as (b1 & -> & Hb1 & Hcov1).
      cbn [mbind result_bind].
      destruct (IH b1 (or_intror Hb1) Hall)
        as (cs' & b & -> & Hb & Hlen & Hold & Hcov).
      cbn [mbind result_bind]. exists (c1 :: cs'), b.
      split; [reflexivity |]. split; [exact Hb |].
      split; [cbn [length]; congruence |].
      split; [intros q Hq; apply Hold, Hcov1; left; exact Hq |].
      intros c0 c0' bc0 [<- | Hin] Hc0.
      * rewrite Hc in Hc0. injection Hc0 as <- <-.
        intros q Hq. apply Hold, Hcov1. right. exact Hq.
      * eapply Hcov; eauto.
Qed.

Lemma group_loop_none calc (cs : list node) : forall b0 : bbox,
  Forall (fun c => calc c = Value (c, None)) cs ->
  group_loop calc b0 cs = Value (cs, b0).
Proof.
  induction cs as [| c cs IH]; intros b0 Hall; cbn [group_loop].
  - reflexivity.
  - apply Forall_cons_iff in Hall as [Hc Hall].
    rewrite Hc. cbn [mbind result_bind as_box combine_bounding_box
                       is_valid_bounding_box].
    rewrite (IH b0 Hall). reflexivity.
Qed.

Section Dispatcher.

Variable py_float : string -> result R.
Variable py_int : string -> result Z.
Variable PATH_LETTERS : string.
Variable normalize : string -> string.
Variable point : string -> result (R * R * string).
Variable Tree : node -> result node.
Variable match_features : node -> bool.

Let calc := calculate_bounding_box py_float py_int PATH_LETTERS normalize
              point Tree match_features.
Let call := call_method py_float py_int PATH_LETTERS normalize point Tree
              match_features.

(** What the dispatcher returns is what the slot of the node holds
    afterwards. *)
Lemma calculate_returns_slot fuel n n' r :
  calc fuel n = Value (n', r) -> r = get n' "bounding_box".
Proof.
  intros H. destruct fuel as [| fuel']; [discriminate |].
  unfold calc in H. cbn [calculate_bounding_box] in H.
  destruct (get n "bounding_box") as [v0 |] eqn:Hget.
  { injection H as <- <-. symmetry. exact Hget. }
  destruct (BOUNDING_BOX_METHODS !! tag n) as [m |].
  2:{ injection H as <- <-. symmetry. exact Hget. }
  bind_inv H.
  all: try (injection H as <- <-; reflexivity).
  all: match goal with
       | v : option pyobj |- _ =>
           destruct v; injection H as <- <-; reflexivity
       end.
Qed.

(** X18.  Memoization is stable: once a query has returned a box, every
    later query on the node it left returns the same box and leaves the
    node as it is, without computing anything. *)
Theorem cached_box_is_returned_again (fuel k : nat) (n n' : node)
    (v : pyobj) :
  calc fuel n = Value (n', Some v) ->
  calc (S k) n' = Value (n', Some v).
Proof.
  intros H. apply calculate_returns_slot in H.
  unfold calc. cbn [calculate_bounding_box]. rewrite <- H. reflexivity.
Qed.

Lemma calculate_unknown_tag k n :
  get n "bounding_box" = None ->
  BOUNDING_BOX_METHODS !! tag n = None ->
  calc (S k) n = Value (n, None).
Proof.
  intros Hget Htag. unfold calc. cbn [calculate_bounding_box].
  rewrite Hget, Htag. reflexivity.
Qed.

(** X19.  Nodes that yield nothing.  With an empty slot, the dispatcher
    returns [None] and leaves the node as it is for a tag that has no
    method, for a text node without a measured box, for a [use] whose
    target fails [match_features], and for a group all of whose children
    have empty slots and tags without a method. *)
Theorem nodes_without_box (k : nat) (n : node) :
  get n "bounding_box" = None ->
  (BOUNDING_BOX_METHODS !! tag n = None -> calc (S k) n = Value (n, None))
  /\ (BOUNDING_BOX_METHODS !! tag n = Some m_text ->
      get n "text_bounding_box" = None ->
      calc (S k) n = Value (n, None))
  /\ (BOUNDING_BOX_METHODS !! tag n = Some m_use ->
      forall tree, Tree n = Value tree -> match_features tree = false ->
      calc (S k) n = Value (n, None))
  /\ (BOUNDING_BOX_METHODS !! tag n = Some m_group ->
      Forall (fun c => get c "bounding_box" = None
                       /\ BOUNDING_BOX_METHODS !! tag c = None) (children n) ->
      calc (S (S k)) n = Value (n, None)).
Proof.
  intros Hget. split; [| split; [| split]].
  - apply calculate_unknown_tag, Hget.
  - intros Hm Htext. unfold calc. cbn [calculate_bounding_box].
    rewrite Hget, Hm. cbn [call_method]. unfold bounding_box_text.
    rewrite Htext. cbn [mbind result_bind as_box is_non_empty_bounding_box
                          is_valid_bounding_box andb].
    rewrite Hget. reflexivity.
  - intros Hm tree Htree Hfeat. unfold calc. cbn [calculate_bounding_box].
    rewrite Hget, Hm. cbn [call_method]. rewrite Htree.
    cbn [mbind result_bind]. rewrite Hfeat.
    cbn [negb mbind result_bind as_box is_non_empty_bounding_box
           is_valid_bounding_box andb].
    rewrite Hget. reflexivity.
  - intros Hm Hkids. unfold calc.
    change (calculate_bounding_box py_float py_int PATH_LETTERS normalize
              point Tree match_features (S (S k)) n)
      with (match get n "bounding_box", BOUNDING_BOX_METHODS !! tag n with
            | None, Some m =>
                '(n, bounding_box) ← call (calc (S k)) (S k) m n;
                b ← as_box bounding_box;
                if is_non_empty_bounding_box b then
                  match bounding_box with
                  | Some v =>
                      let n := setitem n "bounding_box" v in
                      Value (n, get n "bounding_box")
                  | None => Value (n, get n "bounding_box")
                  end
                else Value (n, get n "bounding_box")
            | _, _ => Value (n, get n "bounding_box")
            end).
    rewrite Hget, Hm. unfold call. cbn [call_method].
    rewrite (group_loop_none (calc (S k)) (children n) EMPTY_BOUNDING_BOX).
    2:{ eapply Forall_impl; [exact Hkids |].
        intros c [Hc1 Hc2]. apply calculate_unknown_tag; assumption. }
    cbn [mbind result_bind as_box].
    destruct n as [t d cs]. cbn [tag dict children].
    cbn [is_non_empty_bounding_box is_valid_bounding_box EMPTY_BOUNDING_BOX
           fadd isinf negb andb].
    unfold get in *. cbn [dict] in *. rewrite Hget. reflexivity.
Qed.

(** X20.  Errors are not swallowed.  With an empty slot, a [polyline] or
    [polygon] node whose [points] are a string, given or defaulted, makes
    the dispatcher raise [ValueError], and a [use] node whose reference
    fails to resolve makes it raise the exception of the resolver. *)
Theorem dispatcher_propagates_errors (k : nat) (n : node) :
  get n "bounding_box" = None ->
  (BOUNDING_BOX_METHODS !! tag n = Some m_polyline ->
   (get n "points" = None \/ exists s, get n "points" = Some (OStr s)) ->
   calc (S k) n = Raise ValueError)
  /\ (BOUNDING_BOX_METHODS !! tag n = Some m_use ->
      forall e, Tree n = Raise e -> calc (S k) n = Raise e).
Proof.
  intros Hget. split.
  - intros Hm Hpts. unfold calc. cbn [calculate_bounding_box].
    rewrite Hget, Hm. cbn [call_method].
    unfold bounding_box_polyline, str_attr, get_default.
    unfold get in Hpts.
    destruct Hpts as [-> | [s ->]]; cbn [mbind result_bind];
      destruct k; reflexivity.
  - intros Hm e He. unfold calc. cbn [calculate_bounding_box].
    rewrite Hget, Hm. cbn [call_method]. rewrite He. reflexivity.
Qed.

(** X21.  In exact arithmetic, the box of a group covers its children.  When every child
    yields nothing or a finite box, the group method returns a box that
    is empty or finite, keeps the number of children, and contains every
    point of every child's box. *)
Theorem group_box_covers_children
    (calc0 : node -> result (node * option pyobj)) (fuel : nat) (n : node) :
  Forall (measurable calc0) (children n) ->
  exists cs' b,
    call calc0 fuel m_group n
    = Value (Node (tag n) (dict n) cs', Some (OBox b))
    /\ (b = EMPTY_BOUNDING_BOX \/ finite_box b)
    /\ length cs' = length (children n)
    /\ forall c c' bc, In c (children n) ->
         calc0 c = Value (c', Some (OBox bc)) ->
         forall q, inside bc q -> inside b q.
Proof.
  intros Hall. unfold call. cbn [call_method].
  destruct (group_loop_covers calc0 (children n) EMPTY_BOUNDING_BOX
              (or_introl eq_refl) Hall)
    as (cs' & b & -> & Hb & Hlen & _ & Hcov).
  cbn [mbind result_bind]. exists cs', b. auto.
Qed.

End Dispatcher.

(** ** Semicircles and defaults *)

(** Decide the comparisons of the goal with [r > 0] and [PI > 0] at hand. *)
Ltac decide_Rn :=
  repeat match goal with
  | |- context [Rltb ?a ?b] =>
      first [ rewrite (proj2 (Rltb_true a b)) by nra
            | rewrite (proj2 (Rltb_false a b)) by nra ]
  | |- context [Reqb ?a ?b] =>
      first [ rewrite (proj2 (Reqb_true a b)) by nra
            | rewrite (proj2 (Reqb_false a b)) by nra ]
  end.

(** The first stage of the solver on a horizontal diameter: the center is
    the midpoint of the chord. *)
Lemma arc_diameter_center (cx cy r : R) (large sweep : bool) :
  0 < r ->
  bounding_box_elliptical_arc (cx - r) cy r r 0 large sweep (cx + r) cy
  = arc_extrema (cx - r) cy r r 0 sweep (cx + r) cy 0 0.
Proof.
  intros Hr. unfold bounding_box_elliptical_arc. cbv zeta.
  rewrite (Rabs_pos_eq r) by lra.
  rewrite cos_0, sin_0.
  rewrite (proj2 (Reqb_false r 0)) by lra. cbn [orb].
  match goal with
  | |- context [py_div ?a ?b] =>
      replace a with 0 by field;
      replace b with (r ^ 4) by field;
      rewrite (py_div_eval 0 (r ^ 4)) by (apply pow_nonzero; lra)
  end.
  cbn [mbind result_bind].
  replace (0 / r ^ 4) with 0 by (field; lra).
  rewrite (proj2 (Rltb_false 0 0)) by lra.
  rewrite py_sqrt_eval, sqrt_0 by lra. cbn [mbind result_bind].
  match goal with
  | |- context [py_div ?a r] =>
      replace a with 0 by field; rewrite (py_div_eval 0 r) by lra
  end.
  cbn [mbind result_bind].
  match goal with
  | |- context [py_div ?a r] =>
      replace a with 0 by field; rewrite (py_div_eval 0 r) by lra
  end.
  cbn [mbind result_bind].
  replace (0 / r) with 0 by (field; lra). reflexivity.
Qed.

(** X23.  Semicircles.  For the arc of radius [r > 0] from [(cx - r, cy)]
    to [(cx + r, cy)], with no rotation, the solver returns the half of
    the circle's square on the side of the sweep: [y] from [cy - r] to
    [cy] when [sweep] is set, from [cy] to [cy + r] when it is not; the
    large-arc flag plays no part. *)
Theorem arc_semicircle_boxes (cx cy r : R) (large : bool) :
  0 < r ->
  bounding_box_elliptical_arc (cx - r) cy r r 0 large true (cx + r) cy
  = Value (cx - r, cy - r, 2 * r, r)
  /\ bounding_box_elliptical_arc (cx - r) cy r r 0 large false (cx + r) cy
     = Value (cx - r, cy, 2 * r, r).
Proof.
  intros Hr. pose proof PI_RGT_0 as HPI.
  rewrite !arc_diameter_center by exact Hr.
  unfold arc_extrema. cbv zeta. rewrite cos_0, sin_0, Reqb_refl. cbn [orb].
  rewrite (angle_west r), (angle_east r), (angle_south r), (angle_north r)
    by exact Hr.
  cbn [mbind result_bind]. unfold arc_sweep.
  replace (angle (cx - r - (0 * 1 - 0 * 0 + (cx - r + (cx + r)) / 2))
             (cy - (0 * 0 + 0 * 1 + (cy + cy) / 2)))
    with (angle (- r) 0) by (f_equal; lra).
  replace (angle (cx + r - (0 * 1 - 0 * 0 + (cx - r + (cx + r)) / 2))
             (cy - (0 * 0 + 0 * 1 + (cy + cy) / 2)))
    with (angle r 0) by (f_equal; lra).
  rewrite (angle_west r), (angle_east r) by exact Hr.
  cbn [mbind result_bind negb].
  unfold not_swept, Rgtb, min2, max2, Rgtb.
  split; decide_Rn; cbn [orb andb negb]; decide_Rn;
    apply (f_equal Value);
    repeat match goal with |- (_, _) = (_, _) => f_equal end; lra.
Qed.

Section Defaults.

Variable py_float : string -> result R.

(** X24.  Missing attributes default to 0: a [rect], [circle], [ellipse]
    or [line] node without any of its geometry attributes has the box
    [(0, 0, 0, 0)], provided [float('0')] is 0. *)
Theorem primitive_shapes_default_to_zero (n : node) :
  py_float "0" = Value 0 ->
  (forall key, In key ["x"; "y"; "width"; "height"; "cx"; "cy"; "r";
                       "rx"; "ry"; "x1"; "y1"; "x2"; "y2"] ->
     get n key = None) ->
  let zero := Value (Fin 0, Fin 0, Fin 0, Fin 0) in
  bounding_box_rect py_float n = zero
  /\ bounding_box_circle py_float n = zero
  /\ bounding_box_ellipse py_float n = zero
  /\ bounding_box_line py_float n = zero.
Proof.
  intros Hzero Hkeys zero.
  assert (Hattr : forall key,
            In key ["x"; "y"; "width"; "height"; "cx"; "cy"; "r";
                    "rx"; "ry"; "x1"; "y1"; "x2"; "y2"] ->
            float_attr py_float n key "0" = Value 0).
  { intros key Hin. unfold float_attr, get_default.
    specialize (Hkeys key Hin). unfold get in Hkeys. rewrite Hkeys.
    exact Hzero. }
  unfold bounding_box_rect, bounding_box_circle, bounding_box_ellipse,
    bounding_box_line, zero.
  rewrite !Hattr by (cbn [In]; tauto).
  cbn [mbind result_bind box_of]. unfold max2, min2, Rgtb.
  rewrite !(proj2 (Rltb_false 0 0)) by lra.
  repeat split; box_eq; lra.
Qed.

End Defaults.

(** ** Instances of the further properties *)

Lemma unit_box_finite : finite_box unit_box.
Proof. exists 0, 0, 1, 1. split; [reflexivity | lra]. Qed.

Lemma far_box_finite : finite_box far_box.
Proof. exists 2, 3, 1, 1. split; [reflexivity | lra]. Qed.

Lemma origin_inside_unit_box : forall q, In q [(0, 0)] -> inside unit_box q.
Proof.
  intros q [<- | []]. exists 0, 0, 1, 1. split; [reflexivity |].
  cbn [fst snd]. lra.
Qed.

Lemma extend_covers_witness :
  finite_box unit_box
  /\ exists b', extend_bounding_box unit_box (map num_point [(2, 3)])
               = Value b'
               /\ finite_box b' /\ inside b' (2, 3).
Proof.
  split; [exact unit_box_finite |].
  destruct (extend_covers unit_box (2, 3) [] unit_box_finite)
    as (b' & Hb' & Hfin & Hpts & _).
  exists b'. split; [exact Hb' |]. split; [exact Hfin |].
  apply Hpts. left. reflexivity.
Defined.

Lemma extend_inside_is_identity_witness :
  finite_box unit_box
  /\ (forall q, In q [(0, 0)] -> inside unit_box q)
  /\ extend_bounding_box unit_box (map num_point [(0, 0)]) = Value unit_box.
Proof.
  split; [exact unit_box_finite |]. split; [exact origin_inside_unit_box |].
  exact (extend_inside_is_identity unit_box (0, 0) [] unit_box_finite
           origin_inside_unit_box).
Defined.

Lemma extend_order_independent_witness :
  running_box EMPTY_BOUNDING_BOX
  /\ Permutation [(0, 0); (1, 2)] [(1, 2); (0, 0)]
  /\ extend_bounding_box EMPTY_BOUNDING_BOX (map num_point [(0, 0); (1, 2)])
     = extend_bounding_box EMPTY_BOUNDING_BOX
         (map num_point [(1, 2); (0, 0)]).
Proof.
  assert (Hrun : running_box EMPTY_BOUNDING_BOX) by (left; reflexivity).
  assert (HP : Permutation [(0, 0); (1, 2)] [(1, 2); (0, 0)])
    by apply perm_swap.
  split; [exact Hrun |]. split; [exact HP |].
  exact (extend_order_independent EMPTY_BOUNDING_BOX (0, 0) [(1, 2)]
           [(1, 2); (0, 0)] Hrun HP).
Defined.

Lemma extend_twice_witness :
  running_box EMPTY_BOUNDING_BOX
  /\ (b' ← extend_bounding_box EMPTY_BOUNDING_BOX (map num_point [(0, 0)]);
      extend_bounding_box b' (map num_point [(1, 2)]))
     = extend_bounding_box EMPTY_BOUNDING_BOX
         (map num_point [(0, 0); (1, 2)]).
Proof.
  assert (Hrun : running_box EMPTY_BOUNDING_BOX) by (left; reflexivity).
  split; [exact Hrun |].
  exact (extend_twice EMPTY_BOUNDING_BOX (0, 0) (1, 2) [] [] Hrun).
Defined.

Lemma combine_empty_left_witness :
  finite_box unit_box
  /\ combine_bounding_box EMPTY_BOUNDING_BOX (Some unit_box) = Value unit_box.
Proof.
  split; [exact unit_box_finite |].
  exact (combine_empty_left unit_box unit_box_finite).
Defined.

Lemma combine_commutative_witness :
  finite_box unit_box /\ finite_box far_box
  /\ combine_bounding_box unit_box (Some far_box)
     = combine_bounding_box far_box (Some unit_box).
Proof.
  split; [exact unit_box_finite |]. split; [exact far_box_finite |].
  exact (combine_commutative unit_box far_box unit_box_finite far_box_finite).
Defined.

Lemma combine_associative_witness :
  finite_box unit_box /\ finite_box far_box
  /\ (ab ← combine_bounding_box unit_box (Some far_box);
      combine_bounding_box ab (Some unit_box))
     = (bc ← combine_bounding_box far_box (Some unit_box);
        combine_bounding_box unit_box (Some bc)).
Proof.
  split; [exact unit_box_finite |]. split; [exact far_box_finite |].
  exact (combine_associative unit_box far_box unit_box unit_box_finite
           far_box_finite unit_box_finite).
Defined.

Lemma combine_covers_witness :
  finite_box unit_box /\ finite_box far_box
  /\ exists c, combine_bounding_box unit_box (Some far_box) = Value c
              /\ finite_box c.
Proof.
  split; [exact unit_box_finite |]. split; [exact far_box_finite |].
  destruct (combine_covers unit_box far_box unit_box_finite far_box_finite)
    as (c & Hc & Hfin & _).
  exists c. split; [exact Hc | exact Hfin].
Defined.

Lemma angle_range_witness :
  (1 <> 0 \/ 0 <> 0)
  /\ exists a, angle 1 0 = Value a /\ 0 <= a < 2 * PI.
Proof.
  assert (H : 1 <> 0 \/ 0 <> 0) by (left; lra).
  split; [exact H |]. exact (proj1 angle_range 1 0 H).
Defined.

Lemma arc_coincident_endpoints_raise_witness :
  1 <> 0
  /\ bounding_box_elliptical_arc 0 0 1 1 0 true true 0 0
     = Raise ZeroDivisionError.
Proof.
  assert (H : 1 <> 0) by lra.
  split; [exact H |].
  exact (arc_coincident_endpoints_raise 0 0 1 1 0 true true H H).
Defined.

Lemma zero_radius_arc_extends_by_endpoints_witness :
  (0 = 0 \/ 5 = 0) /\ running_box EMPTY_BOUNDING_BOX
  /\ (arc_bounding_box ← bounding_box_elliptical_arc 1 1 0 5 0 true true 3 4;
      let '(b0, b1, b2, b3) := arc_bounding_box in
      extend_bounding_box EMPTY_BOUNDING_BOX
        (map num_point [(b0, b1); (b2, b3)]))
     = extend_bounding_box EMPTY_BOUNDING_BOX (map num_point [(1, 1); (3, 4)]).
Proof.
  assert (Hr : 0 = 0 \/ 5 = 0) by (left; reflexivity).
  assert (Hrun : running_box EMPTY_BOUNDING_BOX) by (left; reflexivity).
  split; [exact Hr |]. split; [exact Hrun |].
  exact (zero_radius_arc_extends_by_endpoints EMPTY_BOUNDING_BOX 1 1 0 5 0
           true true 3 4 Hr Hrun).
Defined.

Lemma path_loop_diverges_witness :
  "5" <> EmptyString /\ strip "5" = "5"
  /\ str_in (first_token "5") Helpers.PATH_LETTERS = false
  /\ has_branch "z" = false
  /\ path_loop Py.float Py.int Helpers.PATH_LETTERS Helpers.point 3 3
       (PathState "z" "5" EMPTY_BOUNDING_BOX 0 0) = OutOfFuel.
Proof.
  assert (H1 : "5" <> EmptyString) by discriminate.
  assert (H2 : strip "5" = "5") by reflexivity.
  assert (H3 : str_in (first_token "5") Helpers.PATH_LETTERS = false)
    by reflexivity.
  assert (H4 : has_branch "z" = false) by reflexivity.
  split; [exact H1 |]. split; [exact H2 |]. split; [exact H3 |].
  split; [exact H4 |].
  exact (path_loop_diverges Py.float Py.int Helpers.PATH_LETTERS
           Helpers.point 3 3 "z" "5" EMPTY_BOUNDING_BOX 0 0 H1 H2 H3 H4).
Defined.

Lemma bare_get tag cs key : get (bare tag cs) key = None.
Proof. unfold get, bare. cbn [dict]. apply lookup_empty. Qed.

Lemma bounding_box_path_no_data_witness :
  Helpers.normalize EmptyString = EmptyString
  /\ get (bare "path" []) "d" = None
  /\ bounding_box_path Py.float Py.int Helpers.PATH_LETTERS Helpers.normalize
       Helpers.point 0 (bare "path" []) = Value EMPTY_BOUNDING_BOX.
Proof.
  assert (H1 : Helpers.normalize EmptyString = EmptyString) by reflexivity.
  split; [exact H1 |]. split; [apply bare_get |].
  exact (bounding_box_path_no_data Py.float Py.int Helpers.PATH_LETTERS
           Helpers.normalize Helpers.point 0 (bare "path" []) H1
           (or_introl (bare_get "path" [] "d"))).
Defined.

Lemma bounding_box_path_invariant_witness :
  path_box 2 "M 0 0 A 5 5 0 1 1 10 0"
  = Value (Fin 0, Fin (-5), Fin 10, Fin 10)
  /\ running_box (Fin 0, Fin (-5), Fin 10, Fin 10).
Proof.
  split; [exact (path_semicircle 0) |].
  exact (proj1 (bounding_box_path_invariant Py.float Py.int
                  Helpers.PATH_LETTERS Helpers.normalize Helpers.point 2 _ _
                  (path_semicircle 0))).
Defined.

Lemma scan_flag_reads_one_digit_witness :
  isdigit "1" = true
  /\ scan_flag 2 "11 10" = Value ("1", "1 10")
  /\ last_isdigit "1" = Value true.
Proof.
  assert (H : isdigit "1" = true) by reflexivity.
  split; [exact H |].
  assert (E : scan_flag 2 "11 10" = Value ("1", "1 10"))
    by exact (proj1 scan_flag_reads_one_digit 2%nat "1"%char "1 10" H).
  split; [exact E |].
  exact (proj2 scan_flag_reads_one_digit 2%nat "11 10" "1" "1 10" E).
Defined.

Lemma cached_box_is_returned_again_witness :
  dispatch 1 text_node
  = Value (setitem text_node "bounding_box" (OBox (Fin 0, Fin 0, Fin 1, Fin 1)),
           Some (OBox (Fin 0, Fin 0, Fin 1, Fin 1)))
  /\ dispatch 1
       (setitem text_node "bounding_box" (OBox (Fin 0, Fin 0, Fin 1, Fin 1)))
     = Value (setitem text_node "bounding_box"
                (OBox (Fin 0, Fin 0, Fin 1, Fin 1)),
              Some (OBox (Fin 0, Fin 0, Fin 1, Fin 1))).
Proof.
  split; [exact dispatch_text_node |].
  exact (cached_box_is_returned_again Py.float Py.int Helpers.PATH_LETTERS
           Helpers.normalize Helpers.point no_tree (fun _ => true)
           1 0 text_node _ _ dispatch_text_node).
Defined.

Lemma nodes_without_box_witness :
  get (bare "svg" []) "bounding_box" = None
  /\ BOUNDING_BOX_METHODS !! tag (bare "svg" []) = None
  /\ dispatch 1 (bare "svg" []) = Value (bare "svg" [], None).
Proof.
  assert (H1 : get (bare "svg" []) "bounding_box" = None) by apply bare_get.
  assert (H2 : BOUNDING_BOX_METHODS !! tag (bare "svg" []) = None)
    by reflexivity.
  split; [exact H1 |]. split; [exact H2 |].
  exact (proj1 (nodes_without_box Py.float Py.int Helpers.PATH_LETTERS
                  Helpers.normalize Helpers.point no_tree (fun _ => true)
                  0 (bare "svg" []) H1) H2).
Defined.

Lemma dispatcher_propagates_errors_witness :
  get (bare "polygon" []) "bounding_box" = None
  /\ BOUNDING_BOX_METHODS !! tag (bare "polygon" []) = Some m_polyline
  /\ get (bare "polygon" []) "points" = None
  /\ dispatch 1 (bare "polygon" []) = Raise ValueError.
Proof.
  assert (H1 : get (bare "polygon" []) "bounding_box" = None)
    by apply bare_get.
  assert (H2 : BOUNDING_BOX_METHODS !! tag (bare "polygon" [])
               = Some m_polyline) by reflexivity.
  assert (H3 : get (bare "polygon" []) "points" = None) by apply bare_get.
  split; [exact H1 |]. split; [exact H2 |]. split; [exact H3 |].
  exact (proj1 (dispatcher_propagates_errors Py.float Py.int
                  Helpers.PATH_LETTERS Helpers.normalize Helpers.point
                  no_tree (fun _ => true) 0 (bare "polygon" []) H1)
           H2 (or_introl H3)).
Defined.

Lemma text_node_measurable : Forall (measurable (dispatch 1)) [text_node].
Proof.
  constructor; [| constructor].
  eexists _, _. split; [exact dispatch_text_node |].
  right. eexists. split; [reflexivity | exact unit_box_finite].
Qed.

Lemma group_box_covers_children_witness :
  Forall (measurable (dispatch 1)) (children (bare "g" [text_node]))
  /\ exists cs' b,
       call_method Py.float Py.int Helpers.PATH_LETTERS Helpers.normalize
         Helpers.point no_tree (fun _ => true) (dispatch 1) 1 m_group
         (bare "g" [text_node])
       = Value (Node "g" ∅ cs', Some (OBox b))
       /\ running_box b.
Proof.
  split; [exact text_node_measurable |].
  destruct (group_box_covers_children Py.float Py.int Helpers.PATH_LETTERS
              Helpers.normalize Helpers.point no_tree (fun _ => true)
              (dispatch 1) 1 (bare "g" [text_node]) text_node_measurable)
    as (cs' & b & Hcall & Hb & _).
  exists cs', b. split; [exact Hcall | exact Hb].
Defined.

Lemma arc_semicircle_boxes_witness :
  0 < 5
  /\ bounding_box_elliptical_arc (5 - 5) 0 5 5 0 true true (5 + 5) 0
     = Value (5 - 5, 0 - 5, 2 * 5, 5).
Proof.
  assert (H : 0 < 5) by lra.
  split; [exact H |]. exact (proj1 (arc_semicircle_boxes 5 0 5 true H)).
Defined.

Lemma primitive_shapes_default_to_zero_witness :
  Py.float "0" = Value 0
  /\ bounding_box_rect Py.float (bare "rect" [])
     = Value (Fin 0, Fin 0, Fin 0, Fin 0).
Proof.
  split; [exact float_0 |].
  exact (proj1 (primitive_shapes_default_to_zero Py.float (bare "rect" [])
                  float_0 (fun key _ => bare_get "rect" [] key))).
Defined.

Lemma bare_rect_box :
  bounding_box_rect Py.float (bare "rect" [])
  = Value (Fin 0, Fin 0, Fin 0, Fin 0).
Proof.
  unfold bounding_box_rect, float_attr, get_default, bare. cbn [dict].
  rewrite !lookup_empty, float_0. cbn [mbind result_bind box_of].
  unfold max2, Rgtb. rewrite (proj2 (Rltb_false 0 0)) by lra. reflexivity.
Qed.

Lemma primitive_shapes_well_formed_witness :
  bounding_box_rect Py.float (bare "rect" [])
  = Value (Fin 0, Fin 0, Fin 0, Fin 0)
  /\ well_formed (Fin 0, Fin 0, Fin 0, Fin 0).
Proof.
  split; [exact bare_rect_box |].
  exact (proj1 (primitive_shapes_well_formed Py.float (bare "rect" []) _)
           bare_rect_box).
Defined.
